(** * WiFiInfoManager: persisted Wi-Fi credentials on an ESP32

    A shallow embedding of [viawifi::WiFiInfoManager]
    (WiFiInfoManager.h, WiFiInfoManager.cpp) and the properties of its
    persistence and readiness logic.

    Conventions of the embedding.
    - A [char] is a [byte]: on the ESP32 targets [char] is unsigned, so a
      cell read back from erased flash compares equal to [0xFF].
    - A [char] array is a [list byte] of the array's length; a
      [const char*] is the list of the bytes of the object it points
      into, from the pointed byte on.  Arguments are caller-owned and do
      not alias the manager's own fields.
    - The C library functions run off the end of an array when no
      terminator is met, and [strcpy] writes past a destination that is
      too small.  Both are undefined behaviour, which the embedding
      reports as [None].
    - Methods are computations over a [World]: the object ([this]), the
      global [EEPROM] object and the list of calls made to the external
      collaborators. *)

From Stdlib Require Import Strings.String Strings.Byte.
From Stdlib Require Import List Bool Arith ZArith Lia.
Import ListNotations.

(** ** C strings *)

Module CString.

(** Index of the first terminator in the array [a]; [None] when the
    array holds none. *)
Fixpoint strlen (a : list byte) : option nat :=
  match a with
  | [] => None
  | c :: a' => if Byte.eqb c x00 then Some 0 else option_map S (strlen a')
  end.

(** The string seen through a [const char*]: the bytes before the first
    terminator. *)
Definition c_str (a : list byte) : option (list byte) :=
  option_map (fun n => firstn n a) (strlen a).

(** [strcpy(dst, src)]: the string at [src] and its terminator replace
    the first cells of [dst]; the cells behind them keep their value. *)
Definition strcpy (dst src : list byte) : option (list byte) :=
  match strlen src with
  | Some n =>
      if n <? length dst
      then Some (firstn (n + 1) src ++ skipn (n + 1) dst)
      else None
  | None => None
  end.

Definition uchar (c : byte) : Z := Z.of_N (Byte.to_N c).

(** [strcmp(a, b)]: the difference of the first pair of differing
    cells (as [unsigned char]), 0 when both strings end together. *)
Fixpoint strcmp (a b : list byte) : option Z :=
  match a, b with
  | x :: a', y :: b' =>
      if Byte.eqb x y
      then if Byte.eqb x x00 then Some 0%Z else strcmp a' b'
      else Some (uchar x - uchar y)%Z
  | _, _ => None
  end.

(** A string literal: its characters and the terminator. *)
Definition lit (s : string) : list byte :=
  list_byte_of_string s ++ [x00].

(** The empty string literal. *)
Definition empty : list byte := lit EmptyString.

End CString.
Import CString.

(** ** The persistent medium *)

(** Calls made to the collaborators outside the class. *)
Inductive call : Type :=
| CallBegin (size : nat)
| CallGet (address : nat)
| CallPut (address : nat)
| CallCommit
| CallCollector.

(** Modelled from the spec: the global [EEPROM] object of the Arduino
    core, declared in EEPROM.h, which is not part of the sources.  The
    medium is a byte-addressable region; [begin] reserves it and reports
    whether that worked, [get] is a raw read, [put] a raw staged write and
    [commit] flushes the staged cells durably.  A cell that was never
    written reads as the erased value [0xFF]. *)
Record EEPROMClass : Type := mkEEPROM {
  usable : bool;          (* whether [begin] succeeds *)
  cells : list byte;      (* the region as read and written (staged) *)
  flash : list byte;      (* the cells flushed by the last commit *)
  flushes : bool          (* whether [commit] succeeds *)
}.

(** Modelled from the spec: what the operations of the medium do to it
    ([EEPROM.begin], the raw read and write at an address, and
    [EEPROM.commit]); EEPROM.h and its implementation are not part of the
    sources. *)
Module Medium.

Definition erased : byte := xff.

(** [n] cells from [address] on; cells past the written ones are
    erased. *)
Definition read_cells (address n : nat) (region : list byte) : list byte :=
  firstn n (skipn address region ++ repeat erased n).

(** The region with [bytes] laid over it at [address]. *)
Definition write_cells (address : nat) (bytes region : list byte) : list byte :=
  firstn address (region ++ repeat erased address)
    ++ bytes ++ skipn (address + length bytes) region.

Definition begin (size : nat) (e : EEPROMClass) : bool := usable e.

Definition staged (bytes : list byte) (address : nat) (e : EEPROMClass) : EEPROMClass :=
  mkEEPROM (usable e) (write_cells address bytes (cells e)) (flash e) (flushes e).

Definition committed (e : EEPROMClass) : EEPROMClass :=
  if flushes e
  then mkEEPROM (usable e) (cells e) (cells e) (flushes e)
  else e.

End Medium.

(** ** The class *)

(** [struct wifi_info { char ssid[33]; char password[64]; }] *)
Record wifi_info : Type := mk_wifi_info {
  ssid : list byte;
  password : list byte
}.

Definition SSID_SIZE : nat := 33.
Definition PASSWORD_SIZE : nat := 64.

(** [sizeof(wifi_info)]: two [char] arrays, no padding. *)
Definition sizeof_wifi_info : nat := SSID_SIZE + PASSWORD_SIZE.

(** The object representation of a [wifi_info] and its inverse. *)
Definition bytes_of_wifi_info (i : wifi_info) : list byte := ssid i ++ password i.

Definition wifi_info_of_bytes (bs : list byte) : wifi_info :=
  mk_wifi_info (firstn SSID_SIZE bs) (skipn SSID_SIZE bs).

Record WiFiInfoManager : Type := mkManager {
  ap_config : wifi_info;
  client_config : wifi_info;
  is_enable : bool
}.

(** [static constexpr int const EEPROM_SIZE = 97;] *)
Definition EEPROM_SIZE : nat := 97.

(** [WiFiInfoManager() = default;]: the two records hold whatever the
    storage of the object held ([junk_ap], [junk_client]); the flag has
    its initialiser. *)
Definition constructed (junk_ap junk_client : wifi_info) : WiFiInfoManager :=
  mkManager junk_ap junk_client false.

Definition zeroed : wifi_info :=
  mk_wifi_info (repeat x00 SSID_SIZE) (repeat x00 PASSWORD_SIZE).

(** An object with static storage duration starts zero-initialised. *)
Definition fresh : WiFiInfoManager := constructed zeroed zeroed.

(** The [char] arrays that are assigned through [strcpy]. *)
Inductive field : Type :=
| ap_ssid_f | ap_password_f | client_ssid_f | client_password_f.

Definition field_get (f : field) (t : WiFiInfoManager) : list byte :=
  match f with
  | ap_ssid_f => ssid (ap_config t)
  | ap_password_f => password (ap_config t)
  | client_ssid_f => ssid (client_config t)
  | client_password_f => password (client_config t)
  end.

Definition field_set (f : field) (v : list byte) (t : WiFiInfoManager) : WiFiInfoManager :=
  match f with
  | ap_ssid_f =>
      mkManager (mk_wifi_info v (password (ap_config t))) (client_config t) (is_enable t)
  | ap_password_f =>
      mkManager (mk_wifi_info (ssid (ap_config t)) v) (client_config t) (is_enable t)
  | client_ssid_f =>
      mkManager (ap_config t) (mk_wifi_info v (password (client_config t))) (is_enable t)
  | client_password_f =>
      mkManager (ap_config t) (mk_wifi_info (ssid (client_config t)) v) (is_enable t)
  end.

Definition set_is_enable (b : bool) (t : WiFiInfoManager) : WiFiInfoManager :=
  mkManager (ap_config t) (client_config t) b.

(** ** Computations *)

Record World : Type := mkWorld {
  this : WiFiInfoManager;
  EEPROM : EEPROMClass;
  calls : list call
}.

Definition M (A : Type) : Type := World -> option (A * World).

Definition ret {A : Type} (a : A) : M A := fun w => Some (a, w).

Definition bind {A B : Type} (c : M A) (k : A -> M B) : M B :=
  fun w => match c w with
           | Some (a, w') => k a w'
           | None => None
           end.

Declare Scope method_scope.
Delimit Scope method_scope with method.
Notation "x <- c ;; k" := (bind c (fun x => k))
  (at level 61, c at next level, right associativity) : method_scope.
Notation "c ;; k" := (bind c (fun _ => k))
  (at level 61, right associativity) : method_scope.
Local Open Scope method_scope.

(** Reading a member of [this]. *)
Definition member {A : Type} (proj : WiFiInfoManager -> A) : M A :=
  fun w => Some (proj (this w), w).

(** Updating [this]. *)
Definition assign (upd : WiFiInfoManager -> WiFiInfoManager) : M unit :=
  fun w => Some (tt, mkWorld (upd (this w)) (EEPROM w) (calls w)).

(** Recording a call to a collaborator. *)
Definition called (c : call) : M unit :=
  fun w => Some (tt, mkWorld (this w) (EEPROM w) (calls w ++ [c])).

(** [strcpy(this->f, src)] *)
Definition strcpy_to (f : field) (src : list byte) : M unit :=
  fun w => match strcpy (field_get f (this w)) src with
           | Some v => assign (field_set f v) w
           | None => None
           end.

(** [EEPROM.begin(size)] *)
Definition EEPROM_begin (size : nat) : M bool :=
  called (CallBegin size) ;;
  fun w => Some (Medium.begin size (EEPROM w), w).

(** [EEPROM.get<wifi_info>(address, buf)]; the result is [buf]. *)
Definition EEPROM_get (address : nat) : M wifi_info :=
  called (CallGet address) ;;
  fun w => Some (wifi_info_of_bytes
                   (Medium.read_cells address sizeof_wifi_info (cells (EEPROM w))), w).

(** [EEPROM.put<wifi_info>(address, t)] *)
Definition EEPROM_put (address : nat) (t : wifi_info) : M unit :=
  called (CallPut address) ;;
  fun w => Some (tt, mkWorld (this w)
                       (Medium.staged (bytes_of_wifi_info t) address (EEPROM w))
                       (calls w)).

(** [EEPROM.commit()] *)
Definition EEPROM_commit : M bool :=
  called CallCommit ;;
  fun w => Some (flushes (EEPROM w),
                 mkWorld (this w) (Medium.committed (EEPROM w)) (calls w)).

Section Methods.

(** What the web server behind [get] does to the object and answers.
    The repository's [get] has the body [stub] below. *)
Variable collector : WiFiInfoManager -> bool * WiFiInfoManager.

Definition getAPSSID : M (list byte) := member (fun t => ssid (ap_config t)).
Definition getAPPassword : M (list byte) := member (fun t => password (ap_config t)).
Definition getSSID : M (list byte) := member (fun t => ssid (client_config t)).
Definition getPassword : M (list byte) := member (fun t => password (client_config t)).

Definition init : M bool :=
  b <- EEPROM_begin EEPROM_SIZE ;;
  assign (set_is_enable b) ;;
  member is_enable.

(** [if(!this->is_enable) { if(!this->init()) return false; }], the
    statement that opens [restore] and [store]: whether the method goes
    on. *)
Definition enabled_or_init : M bool :=
  en <- member is_enable ;;
  if negb en then init else ret true.

Definition restore : M bool :=
  ok <- enabled_or_init ;;
  if negb ok then ret false else
  buf <- EEPROM_get 0 ;;
  (if negb (Byte.eqb (nth 0 (ssid buf) x00) xff)
   then strcpy_to client_ssid_f (ssid buf) else ret tt) ;;
  (if negb (Byte.eqb (nth 0 (password buf) x00) xff)
   then strcpy_to client_password_f (password buf) else ret tt) ;;
  ret true.

Definition store : M bool :=
  ok <- enabled_or_init ;;
  if negb ok then ret false else
  c <- member client_config ;;
  EEPROM_put 0 c ;;
  EEPROM_commit ;;
  ret true.

Definition setAPConfig (ap_ssid ap_password : list byte) : M unit :=
  strcpy_to ap_ssid_f ap_ssid ;;
  strcpy_to ap_password_f ap_password.

Definition setClientConfig (ssid password : list byte) : M unit :=
  strcpy_to client_ssid_f ssid ;;
  strcpy_to client_password_f password.

Definition isReady : M bool :=
  s <- member (fun t => ssid (client_config t)) ;;
  fun w => match strcmp s empty with
           | Some r => Some (negb (r =? 0)%Z, w)
           | None => None
           end.

Definition get : M bool :=
  called CallCollector ;;
  fun w => let (changed, t) := collector (this w) in
           Some (changed, mkWorld t (EEPROM w) (calls w)).

Definition configure (ap_ssid ap_password : list byte) (is_config : bool) : M bool :=
  setAPConfig ap_ssid ap_password ;;
  setClientConfig empty empty ;;
  restored <- restore ;;
  if negb restored then ret false else
  ready <- (if negb is_config then isReady else ret false) ;;
  if ready then ret true else
  changed <- get ;;
  (if changed then (store ;; ret tt) else ret tt) ;;
  ret false.

End Methods.

(** The body of [get] in the repository: [return false;]. *)
Definition stub (t : WiFiInfoManager) : bool * WiFiInfoManager := (false, t).

(** The methods of the class, as a caller or a sibling method invokes
    them.  [init] is absent: it is only ever entered from [restore] and
    [store], behind their test of [is_enable]. *)
Inductive method : Type :=
| Configure (ap_ssid ap_password : list byte) (is_config : bool)
| GetAPSSID | GetAPPassword | GetSSID | GetPassword
| Restore | Store
| SetAPConfig (ap_ssid ap_password : list byte)
| SetClientConfig (ssid password : list byte)
| IsReady | Get.

Local Open Scope method_scope.

Definition invoke (m : method) : M unit :=
  match m with
  | Configure a p f => configure stub a p f ;; ret tt
  | GetAPSSID => getAPSSID ;; ret tt
  | GetAPPassword => getAPPassword ;; ret tt
  | GetSSID => getSSID ;; ret tt
  | GetPassword => getPassword ;; ret tt
  | Restore => restore ;; ret tt
  | Store => store ;; ret tt
  | SetAPConfig a p => setAPConfig a p
  | SetClientConfig s p => setClientConfig s p
  | IsReady => isReady ;; ret tt
  | Get => get stub ;; ret tt
  end.

(** The states one object goes through: methods are invoked on it one
    after the other, and between two invocations the medium and the call
    record are whatever the rest of the firmware made of them. *)
Inductive lifetime (t0 : WiFiInfoManager) : WiFiInfoManager -> Prop :=
| lifetime_start : lifetime t0 t0
| lifetime_invoke t m e l w' :
    lifetime t0 t ->
    invoke m (mkWorld t e l) = Some (tt, w') ->
    lifetime t0 (this w').

(** ** Vocabulary of the statements *)

(** The arrays have their declared sizes. *)
Definition sized (i : wifi_info) : Prop :=
  length (ssid i) = SSID_SIZE /\ length (password i) = PASSWORD_SIZE.

Definition well_formed (t : WiFiInfoManager) : Prop :=
  sized (ap_config t) /\ sized (client_config t).

(** [src] points to a string of at most [bound] characters. *)
Definition text_within (bound : nat) (src : list byte) : Prop :=
  exists n, strlen src = Some n /\ n <= bound.

(** The first cell of an array. *)
Definition first_cell (a : list byte) : byte := nth 0 a x00.

(** The record found on the medium at address 0. *)
Definition persisted (e : EEPROMClass) : wifi_info :=
  wifi_info_of_bytes (Medium.read_cells 0 sizeof_wifi_info (cells e)).

(** A persisted field that [restore] can take in: it is skipped, or it
    holds a terminator. *)
Definition loadable (a : list byte) : Prop :=
  first_cell a = xff \/ strlen a <> None.

(** The medium is, or can be, initialised. *)
Definition medium_ready (w : World) : Prop :=
  is_enable (this w) = true \/ usable (EEPROM w) = true.

(** The string a caller reads through the pointer an accessor returns. *)
Definition seen (accessor : M (list byte)) (w : World) : option (list byte) :=
  match accessor w with
  | Some (a, _) => c_str a
  | None => None
  end.

(** The calls made between [w] and a later [w']. *)
Definition since (w w' : World) : list call :=
  skipn (length (calls w)) (calls w').

Definition writes_medium (c : call) : bool :=
  match c with
  | CallPut _ | CallCommit => true
  | _ => false
  end.

(** The same world around another object. *)
Definition with_object (t : WiFiInfoManager) (w : World) : World :=
  mkWorld t (EEPROM w) (calls w).

(** What [restore] does with one persisted field [src]: a field that
    starts with the erased value is passed over, any other is copied. *)
Definition taken (src before after : list byte) : Prop :=
  if Byte.eqb (first_cell src) xff
  then after = before
  else strcpy before src = Some after.

(** The world [w'] that a [restore] returning [true] leaves behind [w]. *)
Definition restored (w w' : World) : Prop :=
  EEPROM w' = EEPROM w /\
  calls w' = calls w
               ++ (if is_enable (this w) then [] else [CallBegin EEPROM_SIZE])
               ++ [CallGet 0] /\
  ap_config (this w') = ap_config (this w) /\
  is_enable (this w') = true /\
  taken (ssid (persisted (EEPROM w)))
    (ssid (client_config (this w))) (ssid (client_config (this w'))) /\
  taken (password (persisted (EEPROM w)))
    (password (client_config (this w))) (password (client_config (this w'))).

(** A medium that works and was never written, one that cannot be
    initialised, and the world right after the firmware started on a
    medium. *)
Definition blank : EEPROMClass := mkEEPROM true [] [] true.
Definition broken : EEPROMClass := mkEEPROM false [] [] true.
Definition boot (e : EEPROMClass) : World := mkWorld fresh e [].

(** A computation keeps the relation [R] between the world it starts in
    and the world it ends in. *)
Definition keeps {A : Type} (R : World -> World -> Prop) (c : M A) : Prop :=
  forall w a w', c w = Some (a, w') -> R w w'.

(** The medium is as it was and no call made in between wrote to it or
    committed. *)
Definition quiet (w w' : World) : Prop :=
  EEPROM w' = EEPROM w /\
  exists d, calls w' = calls w ++ d /\ existsb writes_medium d = false.

(** How [is_enable] may move between two worlds: it stays set, and it
    gets set only with a call of [EEPROM.begin] in between. *)
Definition flag_step (w w' : World) : Prop :=
  exists d,
    calls w' = calls w ++ d /\
    (is_enable (this w) = true -> is_enable (this w') = true) /\
    (is_enable (this w) = false -> is_enable (this w') = true ->
     In (CallBegin EEPROM_SIZE) d).

Definition flag_untouched (w w' : World) : Prop :=
  is_enable (this w') = is_enable (this w).

(** The methods that get to the medium: [restore], [store], and
    [configure], which calls them. *)
Definition accesses_medium (m : method) : bool :=
  match m with
  | Configure _ _ _ | Restore | Store => true
  | _ => false
  end.

(** The world [w1] in which [configure] calls [restore], after its two
    assignments in [w]: the AP record holds the arguments, the client
    record is cleared, nothing else moved. *)
Definition assigned (a p : list byte) (w w1 : World) : Prop :=
  EEPROM w1 = EEPROM w /\ calls w1 = calls w /\
  is_enable (this w1) = is_enable (this w) /\
  c_str (ssid (ap_config (this w1))) = c_str a /\
  c_str (password (ap_config (this w1))) = c_str p /\
  first_cell (ssid (client_config (this w1))) = x00 /\
  first_cell (password (client_config (this w1))) = x00 /\
  c_str (ssid (client_config (this w1))) = Some [] /\
  c_str (password (client_config (this w1))) = Some [].

(** The statements of [configure] behind its readiness test. *)
Definition collect_and_store
    (collector : WiFiInfoManager -> bool * WiFiInfoManager) : M bool :=
  bind (get collector)
    (fun changed =>
       bind (if changed then bind store (fun _ => ret tt) else ret tt)
         (fun _ => ret false)).

Definition begins (c : call) : bool :=
  match c with
  | CallBegin _ => true
  | _ => false
  end.

(** The calls that read, write or flush the cells of the medium. *)
Definition touches_medium (c : call) : bool :=
  match c with
  | CallGet _ | CallPut _ | CallCommit => true
  | _ => false
  end.

(** From a world with the flag set, the flag stays set and
    [EEPROM.begin] is not called again. *)
Definition no_rebegin (w w' : World) : Prop :=
  exists d,
    calls w' = calls w ++ d /\
    (is_enable (this w) = true ->
     is_enable (this w') = true /\ existsb begins d = false).

(** ** C strings: facts *)

Section CStringFacts.

Lemma strlen_bound a n : strlen a = Some n -> n < length a.
Proof.
  revert n; induction a as [|c a IH]; simpl; intros n H; [discriminate|].
  destruct (Byte.eqb c x00).
  - inversion H; lia.
  - destruct (strlen a) as [m|]; simpl in H; [|discriminate].
    inversion H; subst. specialize (IH m eq_refl). lia.
Qed.

Lemma strlen_app a b n : strlen a = Some n -> strlen (a ++ b) = Some n.
Proof.
  revert n; induction a as [|c a IH]; simpl; intros n H; [discriminate|].
  destruct (Byte.eqb c x00); [assumption|].
  destruct (strlen a) as [m|]; simpl in H; [|discriminate].
  rewrite (IH m eq_refl). assumption.
Qed.

Lemma strlen_firstn a n : strlen a = Some n -> strlen (firstn (n + 1) a) = Some n.
Proof.
  revert n; induction a as [|c a IH]; simpl; intros n H; [discriminate|].
  destruct (Byte.eqb c x00) eqn:E.
  - inversion H; subst; simpl. rewrite E. reflexivity.
  - destruct (strlen a) as [m|]; simpl in H; [|discriminate].
    inversion H; subst; simpl. rewrite E, (IH m eq_refl). reflexivity.
Qed.

Lemma strlen_first_cell a n :
  strlen a = Some n -> (n = 0 <-> first_cell a = x00).
Proof.
  destruct a as [|c a]; simpl; [discriminate|].
  unfold first_cell; simpl. destruct (Byte.eqb c x00) eqn:E; intros H.
  - apply Byte.byte_dec_bl in E. inversion H; subst. tauto.
  - apply Byte.eqb_false in E.
    destruct (strlen a); simpl in H; [|discriminate].
    inversion H; subst. split; [discriminate | tauto].
Qed.

Lemma c_str_nil_iff a s :
  c_str a = Some s -> (s = [] <-> first_cell a = x00).
Proof.
  unfold c_str. destruct (strlen a) as [n|] eqn:E; simpl; [|discriminate].
  intros H; inversion H; subst.
  rewrite <- (strlen_first_cell a n E).
  pose proof (strlen_bound a n E).
  destruct n; simpl; [tauto|]. destruct a; simpl in *; [lia|].
  split; discriminate.
Qed.

Lemma strcpy_some dst src n :
  strlen src = Some n -> n < length dst ->
  strcpy dst src = Some (firstn (n + 1) src ++ skipn (n + 1) dst).
Proof.
  intros Hn Hlt. unfold strcpy. rewrite Hn.
  destruct (Nat.ltb_spec n (length dst)); [reflexivity | lia].
Qed.

Lemma strcpy_inv dst src d :
  strcpy dst src = Some d ->
  exists n, strlen src = Some n /\ n < length dst /\
            d = firstn (n + 1) src ++ skipn (n + 1) dst.
Proof.
  unfold strcpy. destruct (strlen src) as [n|]; [|discriminate].
  destruct (Nat.ltb_spec n (length dst)) as [Hlt|Hge]; [|discriminate].
  intros Hd; inversion Hd; eauto.
Qed.

Lemma strcpy_length dst src d : strcpy dst src = Some d -> length d = length dst.
Proof.
  intros H. destruct (strcpy_inv _ _ _ H) as (n & Hn & Hlt & ->).
  pose proof (strlen_bound _ _ Hn).
  rewrite length_app, length_firstn, length_skipn. lia.
Qed.

Lemma strcpy_c_str dst src d : strcpy dst src = Some d -> c_str d = c_str src.
Proof.
  intros H. destruct (strcpy_inv _ _ _ H) as (n & Hn & Hlt & ->).
  pose proof (strlen_bound _ _ Hn) as Hb.
  unfold c_str. rewrite (strlen_app _ _ _ (strlen_firstn _ _ Hn)), Hn. simpl.
  rewrite firstn_app, firstn_firstn, length_firstn.
  replace (Nat.min n (n + 1)) with n by lia.
  replace (n - Nat.min (n + 1) (length src)) with 0 by lia.
  simpl. rewrite app_nil_r. reflexivity.
Qed.

Lemma strcpy_first_cell dst src d :
  strcpy dst src = Some d -> first_cell d = first_cell src.
Proof.
  intros H. destruct (strcpy_inv _ _ _ H) as (n & Hn & Hlt & ->).
  destruct src; simpl in Hn; [discriminate|].
  replace (n + 1) with (S n) by lia. reflexivity.
Qed.

Lemma strcpy_text dst src bound :
  text_within bound src -> bound < length dst ->
  exists d, strcpy dst src = Some d.
Proof.
  intros (n & Hn & Hle) Hlt. eexists. apply strcpy_some; [eassumption | lia].
Qed.

Lemma uchar_zero c : uchar c = 0%Z -> c = x00.
Proof.
  unfold uchar. intros H.
  assert (Hn : Byte.to_N c = Byte.to_N x00) by (simpl; lia).
  apply (f_equal Byte.of_N) in Hn. rewrite !Byte.of_to_N in Hn.
  congruence.
Qed.

Lemma strcmp_empty a :
  a <> [] ->
  exists r, strcmp a empty = Some r /\ (r = 0%Z <-> first_cell a = x00).
Proof.
  destruct a as [|c a]; [congruence|]. intros _.
  unfold empty, lit, first_cell; simpl.
  destruct (Byte.eqb c x00) eqn:E.
  - apply Byte.byte_dec_bl in E. subst. eexists; split; [reflexivity | tauto].
  - apply Byte.eqb_false in E. eexists; split; [reflexivity|].
    split; [|tauto]. intros H. exfalso. apply E, uchar_zero.
    unfold uchar in *. simpl in H. lia.
Qed.

End CStringFacts.

(** ** The medium: facts *)

Section MediumFacts.

Import Medium.

Lemma read_cells_length address n region :
  length (read_cells address n region) = n.
Proof.
  unfold read_cells. rewrite length_firstn, length_app, repeat_length. lia.
Qed.

Lemma read_write_cells address bytes region :
  read_cells address (length bytes) (write_cells address bytes region) = bytes.
Proof.
  unfold read_cells, write_cells.
  set (head := firstn address (region ++ repeat erased address)).
  assert (Hhead : length head = address).
  { unfold head. rewrite length_firstn, length_app, repeat_length. lia. }
  rewrite skipn_app, Hhead, Nat.sub_diag, skipn_O.
  rewrite (skipn_all2 head) by lia. simpl.
  rewrite <- !app_assoc, firstn_app, Nat.sub_diag, firstn_all. simpl.
  apply app_nil_r.
Qed.

Lemma persisted_sized e : sized (persisted e).
Proof.
  unfold sized, persisted, wifi_info_of_bytes; cbn [ssid password].
  rewrite length_firstn, length_skipn, read_cells_length.
  unfold sizeof_wifi_info, SSID_SIZE, PASSWORD_SIZE. lia.
Qed.

Lemma wifi_info_bytes_inverse i :
  sized i -> wifi_info_of_bytes (bytes_of_wifi_info i) = i.
Proof.
  intros [Hs Hp]. unfold wifi_info_of_bytes, bytes_of_wifi_info.
  rewrite firstn_app, skipn_app, Hs, Nat.sub_diag.
  rewrite <- Hs, firstn_all, skipn_all. simpl. rewrite app_nil_r.
  destruct i; reflexivity.
Qed.

Lemma persisted_staged i e :
  sized i -> persisted (staged (bytes_of_wifi_info i) 0 e) = i.
Proof.
  intros Hi. unfold persisted, staged; simpl cells.
  assert (Hlen : sizeof_wifi_info = length (bytes_of_wifi_info i)).
  { destruct Hi as [Hs Hp]. unfold bytes_of_wifi_info, sizeof_wifi_info.
    rewrite length_app, Hs, Hp. reflexivity. }
  rewrite Hlen, read_write_cells. apply wifi_info_bytes_inverse, Hi.
Qed.

Lemma persisted_committed e : persisted (committed e) = persisted e.
Proof. unfold persisted, committed. destruct (flushes e); reflexivity. Qed.

End MediumFacts.

(** ** Computations: facts *)

Lemma bind_run {A B : Type} (c : M A) (k : A -> M B) w a w1 :
  c w = Some (a, w1) -> bind c k w = k a w1.
Proof. unfold bind. intros ->. reflexivity. Qed.

Lemma bind_inv {A B : Type} (c : M A) (k : A -> M B) w b w' :
  bind c k w = Some (b, w') ->
  exists a w1, c w = Some (a, w1) /\ k a w1 = Some (b, w').
Proof.
  unfold bind. destruct (c w) as [[a w1]|]; [|discriminate]. eauto.
Qed.

Lemma since_app w w' d : calls w' = calls w ++ d -> since w w' = d.
Proof.
  unfold since. intros ->. rewrite skipn_app, Nat.sub_diag, skipn_all. reflexivity.
Qed.

(** Computations are built from steps; what every step keeps, the whole
    keeps. *)
Section Frame.

Variable R : World -> World -> Prop.
Hypothesis R_refl : forall w, R w w.
Hypothesis R_trans : forall w1 w2 w3, R w1 w2 -> R w2 w3 -> R w1 w3.

Lemma keeps_ret {A : Type} (a : A) : keeps R (ret a).
Proof. intros w a' w' H. inversion H; subst. apply R_refl. Qed.

Lemma keeps_member {A : Type} (proj : WiFiInfoManager -> A) : keeps R (member proj).
Proof. intros w a' w' H. inversion H; subst. apply R_refl. Qed.

Lemma keeps_bind {A B : Type} (c : M A) (k : A -> M B) :
  keeps R c -> (forall a, keeps R (k a)) -> keeps R (bind c k).
Proof.
  intros Hc Hk w b w' H.
  destruct (bind_inv _ _ _ _ _ H) as (a & w1 & H1 & H2).
  eapply R_trans; [eapply Hc | eapply Hk]; eassumption.
Qed.

Lemma keeps_if {A : Type} (b : bool) (c1 c2 : M A) :
  keeps R c1 -> keeps R c2 -> keeps R (if b then c1 else c2).
Proof. destruct b; auto. Qed.

Lemma keeps_isReady : keeps R isReady.
Proof.
  intros w a w' H. unfold isReady, bind, member in H.
  destruct (strcmp _ _); [|discriminate]. inversion H; subst. apply R_refl.
Qed.

Hypothesis R_strcpy_to : forall f src, keeps R (strcpy_to f src).

Lemma keeps_setAPConfig a p : keeps R (setAPConfig a p).
Proof. apply keeps_bind; auto. Qed.

Lemma keeps_setClientConfig s p : keeps R (setClientConfig s p).
Proof. apply keeps_bind; auto. Qed.

Hypothesis R_enabled_or_init : keeps R enabled_or_init.
Hypothesis R_get : forall address, keeps R (EEPROM_get address).

Lemma keeps_restore : keeps R restore.
Proof.
  unfold restore.
  repeat first
    [ apply R_strcpy_to
    | apply R_enabled_or_init
    | apply R_get
    | apply keeps_member
    | apply keeps_ret
    | apply keeps_if
    | apply keeps_bind; [| intros ?] ].
Qed.

(** [configure] keeps R what its parts keep; the part after the readiness
    test depends on the collector and is taken as a whole. *)
Lemma keeps_configure collector a p f :
  keeps R (bind (get collector)
           (fun changed =>
              bind (if changed then bind store (fun _ => ret tt) else ret tt)
                (fun _ => ret false))) ->
  keeps R (configure collector a p f).
Proof.
  intros Htail. unfold configure.
  apply keeps_bind; [apply keeps_setAPConfig | intros _].
  apply keeps_bind; [apply keeps_setClientConfig | intros _].
  apply keeps_bind; [apply keeps_restore | intros restored].
  apply keeps_if; [apply keeps_ret|].
  apply keeps_bind; [apply keeps_if; [apply keeps_isReady | apply keeps_ret] |].
  intros ready. apply keeps_if; [apply keeps_ret | exact Htail].
Qed.

Hypothesis R_put : forall address i, keeps R (EEPROM_put address i).
Hypothesis R_commit : keeps R EEPROM_commit.

Lemma keeps_store : keeps R store.
Proof.
  unfold store.
  repeat first
    [ apply R_enabled_or_init
    | apply R_put
    | apply R_commit
    | apply keeps_member
    | apply keeps_ret
    | apply keeps_if
    | apply keeps_bind; [| intros ?] ].
Qed.

End Frame.


(** ** The methods: what a defined run gives *)

Section Runs.

Lemma strcpy_to_run f src w v :
  strcpy (field_get f (this w)) src = Some v ->
  strcpy_to f src w = Some (tt, with_object (field_set f v (this w)) w).
Proof. unfold strcpy_to. intros ->. reflexivity. Qed.

Lemma init_run w :
  init w = Some (usable (EEPROM w),
                 mkWorld (set_is_enable (usable (EEPROM w)) (this w)) (EEPROM w)
                   (calls w ++ [CallBegin EEPROM_SIZE])).
Proof. reflexivity. Qed.

Lemma EEPROM_get_run w :
  EEPROM_get 0 w = Some (persisted (EEPROM w),
                         mkWorld (this w) (EEPROM w) (calls w ++ [CallGet 0])).
Proof. reflexivity. Qed.

Lemma set_is_enable_same t : set_is_enable (is_enable t) t = t.
Proof. destruct t; reflexivity. Qed.

Lemma enabled_or_init_run w :
  enabled_or_init w =
  Some (is_enable (this w) || usable (EEPROM w),
        if is_enable (this w) then w
        else mkWorld (set_is_enable (usable (EEPROM w)) (this w)) (EEPROM w)
               (calls w ++ [CallBegin EEPROM_SIZE])).
Proof.
  unfold enabled_or_init.
  rewrite (bind_run _ _ w _ w eq_refl).
  destruct (is_enable (this w)); cbn [negb orb]; [reflexivity | apply init_run].
Qed.

(** [restore] when the medium cannot be initialised. *)
Lemma restore_failed w :
  is_enable (this w) = false -> usable (EEPROM w) = false ->
  restore w = Some (false, mkWorld (this w) (EEPROM w)
                             (calls w ++ [CallBegin EEPROM_SIZE])).
Proof.
  intros Hen Hus. unfold restore.
  rewrite (bind_run _ _ _ _ _ (enabled_or_init_run w)), Hen, Hus. cbn [negb orb].
  replace (set_is_enable false (this w)) with (this w)
    by (rewrite <- Hen; symmetry; apply set_is_enable_same).
  reflexivity.
Qed.

(** The world in which [restore] and [store] go on once the medium is
    ready. *)
Lemma enabled_or_init_ready w :
  medium_ready w ->
  exists w1,
    enabled_or_init w = Some (true, w1) /\
    EEPROM w1 = EEPROM w /\ this w1 = set_is_enable true (this w) /\
    calls w1 = calls w ++ (if is_enable (this w) then [] else [CallBegin EEPROM_SIZE]).
Proof.
  intros Hready. rewrite enabled_or_init_run.
  destruct (is_enable (this w)) eqn:Hen; cbn [orb].
  - exists w. rewrite app_nil_r, <- Hen, set_is_enable_same. auto.
  - destruct Hready as [Hr|Hr]; [congruence|].
    rewrite Hr. eexists; split; [reflexivity|]. auto.
Qed.

Lemma loadable_fits src dst :
  loadable src -> length src <= length dst ->
  Byte.eqb (first_cell src) xff = false ->
  exists v, strcpy dst src = Some v.
Proof.
  intros [Hx|Hs] Hlen E.
  - rewrite Hx in E. discriminate.
  - destruct (strlen src) as [n|] eqn:Hn; [|congruence].
    pose proof (strlen_bound _ _ Hn).
    eexists. apply strcpy_some; [eassumption | lia].
Qed.

Lemma restore_ready w :
  medium_ready w ->
  sized (client_config (this w)) ->
  loadable (ssid (persisted (EEPROM w))) ->
  loadable (password (persisted (EEPROM w))) ->
  exists w', restore w = Some (true, w') /\ restored w w'.
Proof.
  intros Hready [Hs Hp] Ls Lp.
  destruct (persisted_sized (EEPROM w)) as [Bs Bp].
  destruct (enabled_or_init_ready w Hready) as (w1 & Hrun & He & Ht & Hc).
  unfold restore.
  rewrite (bind_run _ _ _ _ _ Hrun). cbn [negb].
  rewrite (bind_run _ _ _ _ _ (EEPROM_get_run w1)), He.
  fold (first_cell (ssid (persisted (EEPROM w)))).
  fold (first_cell (password (persisted (EEPROM w)))).
  unfold restored, taken.
  destruct (Byte.eqb (first_cell (ssid (persisted (EEPROM w)))) xff) eqn:E1;
    destruct (Byte.eqb (first_cell (password (persisted (EEPROM w)))) xff) eqn:E2;
    cbn [negb].
  - eexists. split; [reflexivity|]. cbn. rewrite Hc, Ht, <- app_assoc.
    repeat split; solve [reflexivity | assumption].
  - destruct (loadable_fits _ (password (client_config (this w))) Lp) as [v2 H2];
      [lia | exact E2 |].
    rewrite (bind_run _ _ _ _ _ eq_refl).
    erewrite bind_run; [| apply strcpy_to_run; cbn; rewrite Ht; exact H2].
    eexists. split; [reflexivity|]. cbn. rewrite Hc, Ht, <- app_assoc.
    repeat split; solve [reflexivity | assumption].
  - destruct (loadable_fits _ (ssid (client_config (this w))) Ls) as [v1 H1];
      [lia | exact E1 |].
    erewrite bind_run; [| apply strcpy_to_run; cbn; rewrite Ht; exact H1].
    eexists. split; [reflexivity|]. cbn. rewrite Hc, Ht, <- app_assoc.
    repeat split; solve [reflexivity | assumption].
  - destruct (loadable_fits _ (ssid (client_config (this w))) Ls) as [v1 H1];
      [lia | exact E1 |].
    destruct (loadable_fits _ (password (client_config (this w))) Lp) as [v2 H2];
      [lia | exact E2 |].
    erewrite bind_run; [| apply strcpy_to_run; cbn; rewrite Ht; exact H1].
    erewrite bind_run; [| apply strcpy_to_run; cbn; rewrite Ht; exact H2].
    eexists. split; [reflexivity|]. cbn. rewrite Hc, Ht, <- app_assoc.
    repeat split; solve [reflexivity | assumption].
Qed.

Lemma store_run w :
  medium_ready w ->
  store w =
  Some (true,
        mkWorld (set_is_enable true (this w))
          (Medium.committed
             (Medium.staged (bytes_of_wifi_info (client_config (this w))) 0 (EEPROM w)))
          (calls w ++ (if is_enable (this w) then [] else [CallBegin EEPROM_SIZE])
             ++ [CallPut 0; CallCommit])).
Proof.
  intros Hready.
  destruct (enabled_or_init_ready w Hready) as (w1 & Hrun & He & Ht & Hc).
  unfold store. rewrite (bind_run _ _ _ _ _ Hrun). cbn [negb].
  unfold bind, member, EEPROM_put, EEPROM_commit, bind, called, ret. cbn.
  rewrite He, Ht, Hc, <- !app_assoc. reflexivity.
Qed.

Lemma store_failed w :
  is_enable (this w) = false -> usable (EEPROM w) = false ->
  store w = Some (false, mkWorld (this w) (EEPROM w)
                           (calls w ++ [CallBegin EEPROM_SIZE])).
Proof.
  intros Hen Hus. unfold store.
  rewrite (bind_run _ _ _ _ _ (enabled_or_init_run w)), Hen, Hus. cbn [negb orb].
  replace (set_is_enable false (this w)) with (this w)
    by (rewrite <- Hen; symmetry; apply set_is_enable_same).
  reflexivity.
Qed.

Lemma store_total w : exists r w', store w = Some (r, w').
Proof.
  destruct (is_enable (this w)) eqn:Hen.
  - eexists _, _. apply store_run. left. exact Hen.
  - destruct (usable (EEPROM w)) eqn:Hus.
    + eexists _, _. apply store_run. right. exact Hus.
    + eexists _, _. apply store_failed; assumption.
Qed.

Lemma empty_text bound : text_within bound empty.
Proof. exists 0. split; [reflexivity | lia]. Qed.

Lemma setAPConfig_run a p w :
  sized (ap_config (this w)) ->
  text_within (SSID_SIZE - 1) a -> text_within (PASSWORD_SIZE - 1) p ->
  exists t',
    setAPConfig a p w = Some (tt, with_object t' w) /\
    c_str (ssid (ap_config t')) = c_str a /\
    c_str (password (ap_config t')) = c_str p /\
    sized (ap_config t') /\
    client_config t' = client_config (this w) /\
    is_enable t' = is_enable (this w).
Proof.
  intros [Hs Hp] Ha Hpw.
  destruct (strcpy_text (ssid (ap_config (this w))) a _ Ha) as [v1 H1];
    [rewrite Hs; unfold SSID_SIZE; lia|].
  destruct (strcpy_text (password (ap_config (this w))) p _ Hpw) as [v2 H2];
    [rewrite Hp; unfold PASSWORD_SIZE; lia|].
  exists (field_set ap_password_f v2 (field_set ap_ssid_f v1 (this w))).
  split.
  - unfold setAPConfig.
    rewrite (bind_run _ _ _ _ _ (strcpy_to_run ap_ssid_f a w v1 H1)).
    apply (strcpy_to_run ap_password_f p (with_object _ w)). exact H2.
  - cbn. repeat split.
    + apply (strcpy_c_str _ _ _ H1).
    + apply (strcpy_c_str _ _ _ H2).
    + cbn. rewrite (strcpy_length _ _ _ H1). exact Hs.
    + cbn. rewrite (strcpy_length _ _ _ H2). exact Hp.
Qed.

Lemma setClientConfig_run s p w :
  sized (client_config (this w)) ->
  text_within (SSID_SIZE - 1) s -> text_within (PASSWORD_SIZE - 1) p ->
  exists t',
    setClientConfig s p w = Some (tt, with_object t' w) /\
    (c_str (ssid (client_config t')) = c_str s /\
     first_cell (ssid (client_config t')) = first_cell s) /\
    (c_str (password (client_config t')) = c_str p /\
     first_cell (password (client_config t')) = first_cell p) /\
    sized (client_config t') /\
    ap_config t' = ap_config (this w) /\
    is_enable t' = is_enable (this w).
Proof.
  intros [Hs Hp] Ha Hpw.
  destruct (strcpy_text (ssid (client_config (this w))) s _ Ha) as [v1 H1];
    [rewrite Hs; unfold SSID_SIZE; lia|].
  destruct (strcpy_text (password (client_config (this w))) p _ Hpw) as [v2 H2];
    [rewrite Hp; unfold PASSWORD_SIZE; lia|].
  exists (field_set client_password_f v2 (field_set client_ssid_f v1 (this w))).
  split.
  - unfold setClientConfig.
    rewrite (bind_run _ _ _ _ _ (strcpy_to_run client_ssid_f s w v1 H1)).
    apply (strcpy_to_run client_password_f p (with_object _ w)). exact H2.
  - cbn. repeat split.
    + apply (strcpy_c_str _ _ _ H1).
    + apply (strcpy_first_cell _ _ _ H1).
    + apply (strcpy_c_str _ _ _ H2).
    + apply (strcpy_first_cell _ _ _ H2).
    + cbn. rewrite (strcpy_length _ _ _ H1). exact Hs.
    + cbn. rewrite (strcpy_length _ _ _ H2). exact Hp.
Qed.

Lemma isReady_run w :
  ssid (client_config (this w)) <> [] ->
  exists b, isReady w = Some (b, w) /\
            (b = false <-> first_cell (ssid (client_config (this w))) = x00).
Proof.
  intros Hne. destruct (strcmp_empty _ Hne) as (r & Hr & Hiff).
  unfold isReady. rewrite (bind_run _ _ w _ w eq_refl), Hr.
  eexists; split; [reflexivity|].
  rewrite <- Hiff, negb_false_iff. apply Z.eqb_eq.
Qed.

Lemma get_run collector w :
  get collector w =
  Some (fst (collector (this w)),
        mkWorld (snd (collector (this w))) (EEPROM w) (calls w ++ [CallCollector])).
Proof.
  unfold get, bind, called. cbn. destruct (collector (this w)). reflexivity.
Qed.

Lemma taken_length src before after :
  taken src before after -> length after = length before.
Proof.
  unfold taken. destruct (Byte.eqb (first_cell src) xff).
  - intros ->. reflexivity.
  - apply strcpy_length.
Qed.

Lemma taken_erased src before after :
  taken src before after -> first_cell src = xff -> after = before.
Proof. unfold taken. intros H E. rewrite E in H. exact H. Qed.

Lemma taken_written src before after :
  taken src before after -> first_cell src <> xff ->
  c_str after = c_str src /\ first_cell after = first_cell src.
Proof.
  unfold taken. destruct (Byte.eqb (first_cell src) xff) eqn:E.
  - apply Byte.byte_dec_bl in E. congruence.
  - intros H _. split; [apply (strcpy_c_str _ _ _ H) | apply (strcpy_first_cell _ _ _ H)].
Qed.
End Runs.

Section Outcomes.

(** Every defined outcome of [restore]. *)
Lemma restore_inv w r w' :
  restore w = Some (r, w') ->
  if r then restored w w'
  else is_enable (this w) = false /\ usable (EEPROM w) = false /\
       w' = mkWorld (this w) (EEPROM w) (calls w ++ [CallBegin EEPROM_SIZE]).
Proof.
  intros H. unfold restore in H.
  destruct (bind_inv _ _ _ _ _ H) as (ok & w1 & H1 & H2). clear H.
  rewrite enabled_or_init_run in H1. inversion H1 as [[Hok Hw1]]. clear H1.
  destruct ok; cbn [negb] in H2.
  - destruct (bind_inv _ _ _ _ _ H2) as (buf & w2 & G & H3). clear H2.
    rewrite EEPROM_get_run in G. inversion G as [[Hbuf Hw2]]. clear G.
    destruct (bind_inv _ _ _ _ _ H3) as ([] & w3 & Hs & H4). clear H3.
    destruct (bind_inv _ _ _ _ _ H4) as ([] & w4 & Hp & H5). clear H4.
    inversion H5; subst r w'. clear H5.
    assert (Hframe : EEPROM w2 = EEPROM w /\
              this w2 = set_is_enable true (this w) /\
              calls w2 = calls w
                ++ (if is_enable (this w) then [] else [CallBegin EEPROM_SIZE])
                ++ [CallGet 0]).
    { subst w2 w1. destruct (is_enable (this w)) eqn:Hen; cbn in *.
      - rewrite <- Hen, set_is_enable_same. auto.
      - rewrite Hok, <- app_assoc. auto. }
    destruct Hframe as (He & Ht & Hc).
    assert (He1 : EEPROM w1 = EEPROM w) by (rewrite <- He, <- Hw2; reflexivity).
    rewrite He1 in Hbuf. subst buf.
    fold (first_cell (ssid (persisted (EEPROM w)))) in Hs.
    fold (first_cell (password (persisted (EEPROM w)))) in Hp.
    unfold restored, taken.
    destruct (Byte.eqb (first_cell (ssid (persisted (EEPROM w)))) xff);
      destruct (Byte.eqb (first_cell (password (persisted (EEPROM w)))) xff);
      cbn [negb] in Hs, Hp;
      unfold strcpy_to, ret in Hs, Hp;
      repeat match goal with
             | H : match ?x with Some _ => _ | None => _ end = Some _ |- _ =>
                 let E := fresh "E" in destruct x eqn:E; [|discriminate]
             end;
      inversion Hs; inversion Hp; subst; cbn in *;
      rewrite ?Ht in *; cbn in *;
      repeat split; solve [reflexivity | assumption].
  - inversion H2; subst r w'. clear H2.
    destruct (is_enable (this w)) eqn:Hen; cbn [orb] in Hok; [discriminate|].
    rewrite Hok in Hw1. rewrite <- Hw1.
    replace (set_is_enable false (this w)) with (this w)
      by (rewrite <- Hen; symmetry; apply set_is_enable_same).
    auto.
Qed.

End Outcomes.

(** ** [configure]: the ways through it *)

Section ConfigureRuns.

Variable collector : WiFiInfoManager -> bool * WiFiInfoManager.
Variables ap_ssid ap_password : list byte.
Variable w : World.

Hypothesis object_well_formed : well_formed (this w).
Hypothesis ap_ssid_fits : text_within (SSID_SIZE - 1) ap_ssid.
Hypothesis ap_password_fits : text_within (PASSWORD_SIZE - 1) ap_password.

(** The two assignments that open [configure]. *)
Lemma configure_assignments :
  exists w0 w1,
    setAPConfig ap_ssid ap_password w = Some (tt, w0) /\
    setClientConfig empty empty w0 = Some (tt, w1) /\
    EEPROM w1 = EEPROM w /\ calls w1 = calls w /\
    is_enable (this w1) = is_enable (this w) /\
    c_str (ssid (ap_config (this w1))) = c_str ap_ssid /\
    c_str (password (ap_config (this w1))) = c_str ap_password /\
    sized (client_config (this w1)) /\
    (c_str (ssid (client_config (this w1))) = Some [] /\
     first_cell (ssid (client_config (this w1))) = x00) /\
    (c_str (password (client_config (this w1))) = Some [] /\
     first_cell (password (client_config (this w1))) = x00).
Proof.
  destruct object_well_formed as [Hap Hcl].
  destruct (setAPConfig_run ap_ssid ap_password w Hap ap_ssid_fits ap_password_fits)
    as (t0 & R0 & Ss & Sp & _ & Hc0 & He0).
  assert (Hcl0 : sized (client_config (this (with_object t0 w))))
    by (cbn; rewrite Hc0; exact Hcl).
  destruct (setClientConfig_run empty empty (with_object t0 w) Hcl0
              (empty_text _) (empty_text _))
    as (t1 & R1 & Cs & Cp & Hsz & Ha1 & He1).
  exists (with_object t0 w), (with_object t1 (with_object t0 w)).
  cbn in *. rewrite Ha1, He1, He0.
  repeat split; solve [assumption | reflexivity | apply Cs | apply Cp | apply Hsz].
Qed.

(** The medium cannot be initialised: [configure] gives up right after
    the attempt. *)
Lemma configure_medium_failure is_config :
  is_enable (this w) = false -> usable (EEPROM w) = false ->
  exists t',
    configure collector ap_ssid ap_password is_config w =
      Some (false, mkWorld t' (EEPROM w) (calls w ++ [CallBegin EEPROM_SIZE])) /\
    c_str (ssid (ap_config t')) = c_str ap_ssid /\
    c_str (password (ap_config t')) = c_str ap_password /\
    c_str (ssid (client_config t')) = Some [] /\
    c_str (password (client_config t')) = Some [] /\
    is_enable t' = false.
Proof.
  intros Hen Hus.
  destruct configure_assignments
    as (w0 & w1 & R0 & R1 & He & Hc & Hi & As & Ap & _ & [Cs _] & [Cp _]).
  exists (this w1). unfold configure.
  rewrite (bind_run _ _ _ _ _ R0), (bind_run _ _ _ _ _ R1).
  rewrite (bind_run _ _ _ _ _ (restore_failed w1 (eq_trans Hi Hen)
                                 (eq_trans (f_equal usable He) Hus))).
  cbn [negb]. unfold ret. rewrite He, Hc, Hi, Hen. auto 10.
Qed.

Hypothesis medium_is_ready : medium_ready w.
Hypothesis ssid_loadable : loadable (ssid (persisted (EEPROM w))).
Hypothesis password_loadable : loadable (password (persisted (EEPROM w))).

(** The medium is ready: [configure] gets to its readiness test with
    the record of the medium taken in. *)
Lemma configure_restores is_config :
  exists w1 w2,
    EEPROM w1 = EEPROM w /\ calls w1 = calls w /\
    is_enable (this w1) = is_enable (this w) /\
    first_cell (ssid (client_config (this w1))) = x00 /\
    sized (client_config (this w1)) /\
    restore w1 = Some (true, w2) /\ restored w1 w2 /\
    configure collector ap_ssid ap_password is_config w =
      bind (if negb is_config then isReady else ret false)
        (fun ready =>
           if ready then ret true else
           bind (get collector)
             (fun changed =>
                bind (if changed then bind store (fun _ => ret tt) else ret tt)
                  (fun _ => ret false))) w2.
Proof.
  destruct configure_assignments
    as (w0 & w1 & R0 & R1 & He & Hc & Hi & _ & _ & Hsz & [_ Cs] & _).
  assert (Hready : medium_ready w1).
  { unfold medium_ready. rewrite Hi, He. exact medium_is_ready. }
  destruct (restore_ready w1 Hready Hsz) as (w2 & R2 & Hres);
    [rewrite He; assumption | rewrite He; assumption |].
  exists w1, w2.
  split; [exact He|]. split; [exact Hc|]. split; [exact Hi|].
  split; [exact Cs|]. split; [exact Hsz|]. split; [exact R2|].
  split; [exact Hres|].
  unfold configure.
  rewrite (bind_run _ _ _ _ _ R0), (bind_run _ _ _ _ _ R1), (bind_run _ _ _ _ _ R2).
  reflexivity.
Qed.

End ConfigureRuns.

(** ** The collector branch *)

Section CollectorBranch.

Variable collector : WiFiInfoManager -> bool * WiFiInfoManager.

(** The statements of [configure] behind the readiness test always
    come to an end, with the collector called and [false] returned. *)
Lemma collector_branch w :
  exists w' d,
    bind (get collector)
      (fun changed =>
         bind (if changed then bind store (fun _ => ret tt) else ret tt)
           (fun _ => ret false)) w = Some (false, w') /\
    calls w' = calls w ++ CallCollector :: d.
Proof.
  rewrite (bind_run _ _ _ _ _ (get_run collector w)).
  destruct (fst (collector (this w))).
  - set (w1 := mkWorld _ _ _).
    destruct (store_total w1) as (r & w2 & Hst).
    rewrite (bind_run _ _ w1 tt w2);
      [| rewrite (bind_run _ _ _ _ _ Hst); reflexivity ].
    exists w2. unfold ret.
    assert (Hext : exists d, calls w2 = calls w1 ++ d).
    { destruct (is_enable (this w1)) eqn:Hen.
      - rewrite store_run in Hst by (left; exact Hen).
        inversion Hst. cbn. eauto.
      - destruct (usable (EEPROM w1)) eqn:Hus.
        + rewrite store_run in Hst by (right; exact Hus).
          inversion Hst. cbn. eauto.
        + rewrite store_failed in Hst by assumption.
          inversion Hst. cbn. eauto. }
    destruct Hext as [d Hd]. exists d. split; [reflexivity|].
    rewrite Hd. unfold w1. cbn. rewrite <- app_assoc. reflexivity.
  - eexists _, []. split; reflexivity.
Qed.

End CollectorBranch.

(** ** Two runs *)

(** A first start: nothing on the medium, the user enters Home /
    secretpw and confirms.  [configure] stores the record and returns
    [false]; after the restart [restore] finds the two strings. *)
Example first_start_then_restart :
  exists w1 w2,
    configure
      (fun t => (true, field_set client_password_f (lit "secretpw"%string ++ repeat x00 55)
                         (field_set client_ssid_f (lit "Home"%string ++ repeat x00 28) t)))
      (lit "MyAP"%string) (lit "pass1234"%string) false (boot blank)
    = Some (false, w1) /\
    since (boot blank) w1
      = [CallBegin EEPROM_SIZE; CallGet 0; CallCollector; CallPut 0; CallCommit] /\
    restore (boot (EEPROM w1)) = Some (true, w2) /\
    seen getSSID w2 = Some (list_byte_of_string "Home"%string) /\
    seen getPassword w2 = Some (list_byte_of_string "secretpw"%string).
Proof.
  eexists _, _.
  split; [vm_compute; reflexivity|].
  split; [vm_compute; reflexivity|].
  split; [vm_compute; reflexivity|].
  split; vm_compute; reflexivity.
Qed.

(** A persisted SSID field without terminator: [strcpy] runs off the
    array and [restore] has no defined outcome. *)
Example restore_without_terminator :
  restore (boot (mkEEPROM true (repeat x41 SSID_SIZE) [] true)) = None.
Proof. vm_compute. reflexivity. Qed.

(** ** The properties *)

(** C1.  Whenever [configure] gets past [restore] (the medium is
    initialised) and either the configuration is forced or the record
    taken in is not ready, it returns [false]: whatever the collector
    answers and does to the object, and whether or not the following
    [store] and its commit succeed. *)
Theorem configure_collector_branch_returns_false collector a p f w w1 :
  bind (setAPConfig a p)
    (fun _ => bind (setClientConfig empty empty) (fun _ => restore)) w
    = Some (true, w1) ->
  f = true \/ isReady w1 = Some (false, w1) ->
  exists w', configure collector a p f w = Some (false, w').
Proof.
  intros Hpre Hbranch.
  destruct (bind_inv _ _ _ _ _ Hpre) as ([] & v0 & R0 & Hpre1).
  destruct (bind_inv _ _ _ _ _ Hpre1) as ([] & v1 & R1 & R2).
  destruct (collector_branch collector w1) as (w' & d & Hrun & _).
  exists w'. unfold configure.
  rewrite (bind_run _ _ _ _ _ R0), (bind_run _ _ _ _ _ R1), (bind_run _ _ _ _ _ R2).
  cbn [negb]. destruct f; cbn [negb].
  - rewrite (bind_run _ _ w1 false w1 eq_refl). exact Hrun.
  - destruct Hbranch as [Hf|Hnot]; [discriminate|].
    rewrite (bind_run _ _ _ _ _ Hnot). exact Hrun.
Qed.

(** The scenario of a first start: nothing on the medium, the user enters
    Home / secretpw and confirms, the commit goes through. *)
Lemma configure_collector_branch_returns_false_witness :
  exists w',
    configure
      (fun t => (true, field_set client_password_f (lit "secretpw"%string ++ repeat x00 55)
                         (field_set client_ssid_f (lit "Home"%string ++ repeat x00 28) t)))
      (lit "MyAP"%string) (lit "pass1234"%string) false (boot blank)
    = Some (false, w').
Proof.
  eapply configure_collector_branch_returns_false.
  - vm_compute. reflexivity.
  - right. vm_compute. reflexivity.
Defined.

(** C7.  With [is_config] set and a medium that is or can be initialised,
    [configure] calls the collector, whatever record the medium holds:
    also one with a non-empty SSID. *)
Theorem forced_configure_calls_collector collector a p w :
  well_formed (this w) ->
  text_within (SSID_SIZE - 1) a -> text_within (PASSWORD_SIZE - 1) p ->
  medium_ready w ->
  loadable (ssid (persisted (EEPROM w))) ->
  loadable (password (persisted (EEPROM w))) ->
  exists r w',
    configure collector a p true w = Some (r, w') /\
    In CallCollector (since w w').
Proof.
  intros Hwf Ha Hp Hready Ls Lp.
  destruct (configure_restores collector a p w Hwf Ha Hp Hready Ls Lp true)
    as (w1 & w2 & _ & Hc1 & _ & _ & _ & _ & Hres & Hcfg).
  destruct (collector_branch collector w2) as (w' & d & Hrun & Hc').
  exists false, w'. split.
  - rewrite Hcfg. cbn [negb]. rewrite (bind_run _ _ w2 false w2 eq_refl). exact Hrun.
  - destruct Hres as (_ & Hc2 & _).
    rewrite (since_app w w' ((if is_enable (this w1) then [] else [CallBegin EEPROM_SIZE])
                               ++ [CallGet 0] ++ CallCollector :: d)).
    + rewrite !in_app_iff. right. right. left. reflexivity.
    + rewrite Hc', Hc2, Hc1, <- !app_assoc. reflexivity.
Qed.

(** A medium that holds Home / secretpw: the forced call still goes to
    the collector. *)
Lemma forced_configure_calls_collector_witness :
  exists r w',
    configure stub (lit "MyAP"%string) (lit "pass1234"%string) true
      (boot (mkEEPROM true (lit "Home"%string ++ repeat x00 28 ++ lit "secretpw"%string)
               [] true))
    = Some (r, w') /\
    In CallCollector
      (since (boot (mkEEPROM true (lit "Home"%string ++ repeat x00 28 ++ lit "secretpw"%string)
                      [] true)) w').
Proof.
  apply forced_configure_calls_collector.
  - split; split; reflexivity.
  - exists 4. split; [reflexivity | vm_compute; lia].
  - exists 8. split; [reflexivity | vm_compute; lia].
  - right. reflexivity.
  - right. vm_compute. discriminate.
  - right. vm_compute. discriminate.
Defined.

(** C5.  When the medium cannot be initialised, [configure] returns
    [false] with nothing called but [EEPROM.begin], and the AP record
    already holds the two strings it was given. *)
Theorem configure_medium_failure_keeps_ap_record collector a p f w :
  well_formed (this w) ->
  text_within (SSID_SIZE - 1) a -> text_within (PASSWORD_SIZE - 1) p ->
  is_enable (this w) = false -> usable (EEPROM w) = false ->
  exists w',
    configure collector a p f w = Some (false, w') /\
    since w w' = [CallBegin EEPROM_SIZE] /\
    seen getAPSSID w' = c_str a /\
    seen getAPPassword w' = c_str p.
Proof.
  intros Hwf Ha Hp Hen Hus.
  destruct (configure_medium_failure collector a p w Hwf Ha Hp f Hen Hus)
    as (t' & Hrun & As & Ap & _).
  eexists. split; [exact Hrun|]. split; [|split].
  - apply since_app. reflexivity.
  - exact As.
  - exact Ap.
Qed.

(** The scenario of the specification: MyAP / pass1234 on a medium that
    fails. *)
Lemma configure_medium_failure_keeps_ap_record_witness :
  exists w',
    configure stub (lit "MyAP"%string) (lit "pass1234"%string) false (boot broken)
    = Some (false, w') /\
    since (boot broken) w' = [CallBegin EEPROM_SIZE] /\
    seen getAPSSID w' = Some (list_byte_of_string "MyAP"%string) /\
    seen getAPPassword w' = Some (list_byte_of_string "pass1234"%string).
Proof.
  apply (configure_medium_failure_keeps_ap_record stub
           (lit "MyAP"%string) (lit "pass1234"%string) false (boot broken)).
  - split; split; reflexivity.
  - exists 4. split; [reflexivity | vm_compute; lia].
  - exists 8. split; [reflexivity | vm_compute; lia].
  - reflexivity.
  - reflexivity.
Defined.

(** C10.  When the medium cannot be initialised, [configure] returns
    [false] and both strings of the client record are empty: they were
    cleared before [restore], which gave up before reading. *)
Theorem configure_medium_failure_leaves_client_empty collector a p f w :
  well_formed (this w) ->
  text_within (SSID_SIZE - 1) a -> text_within (PASSWORD_SIZE - 1) p ->
  is_enable (this w) = false -> usable (EEPROM w) = false ->
  exists w',
    configure collector a p f w = Some (false, w') /\
    seen getSSID w' = Some [] /\
    seen getPassword w' = Some [] /\
    ~ In (CallGet 0) (since w w').
Proof.
  intros Hwf Ha Hp Hen Hus.
  destruct (configure_medium_failure collector a p w Hwf Ha Hp f Hen Hus)
    as (t' & Hrun & _ & _ & Cs & Cp & _).
  eexists. split; [exact Hrun|]. split; [exact Cs|]. split; [exact Cp|].
  rewrite (since_app w _ [CallBegin EEPROM_SIZE]) by reflexivity.
  intros [Hin|[]]. discriminate.
Qed.

(** An object whose client record held Home / secretpw before the call,
    on a medium that fails and holds other text. *)
Lemma configure_medium_failure_leaves_client_empty_witness :
  exists w',
    configure stub (lit "MyAP"%string) (lit "pass1234"%string) true
      (mkWorld
         (constructed zeroed
            (mk_wifi_info (lit "Home"%string ++ repeat x00 28)
               (lit "secretpw"%string ++ repeat x00 55)))
         (mkEEPROM false (lit "Cafe"%string) [] true) [])
    = Some (false, w') /\
    seen getSSID w' = Some [] /\
    seen getPassword w' = Some [] /\
    ~ In (CallGet 0)
        (since (mkWorld
                  (constructed zeroed
                     (mk_wifi_info (lit "Home"%string ++ repeat x00 28)
                        (lit "secretpw"%string ++ repeat x00 55)))
                  (mkEEPROM false (lit "Cafe"%string) [] true) []) w').
Proof.
  apply configure_medium_failure_leaves_client_empty.
  - split; split; reflexivity.
  - exists 4. split; [reflexivity | vm_compute; lia].
  - exists 8. split; [reflexivity | vm_compute; lia].
  - reflexivity.
  - reflexivity.
Defined.

(** C6.  [isReady()] is true exactly when the client SSID is a non-empty
    string; it leaves the object alone, its answer is a function of the
    SSID array only, and an empty SSID next to any password gives
    [false]. *)
Theorem isReady_iff_ssid_nonempty :
  (forall w s,
     seen getSSID w = Some s ->
     exists b, isReady w = Some (b, w) /\ (b = true <-> s <> [])) /\
  (forall w1 w2,
     ssid (client_config (this w1)) = ssid (client_config (this w2)) ->
     option_map fst (isReady w1) = option_map fst (isReady w2)) /\
  (forall w p,
     seen getSSID w = Some [] -> seen getPassword w = Some p ->
     isReady w = Some (false, w)).
Proof.
  assert (Hmain : forall w s,
     seen getSSID w = Some s ->
     exists b, isReady w = Some (b, w) /\ (b = true <-> s <> [])).
  { intros w s Hs. unfold seen, getSSID, member in Hs.
    assert (Hne : ssid (client_config (this w)) <> []).
    { intros E. rewrite E in Hs. discriminate. }
    destruct (isReady_run w Hne) as (b & Hb & Hiff).
    exists b. split; [exact Hb|].
    rewrite <- (c_str_nil_iff _ _ Hs) in Hiff.
    destruct b; split; intros H; try congruence.
    - intros E. apply Hiff in E. discriminate.
    - exfalso. apply H. apply Hiff. reflexivity. }
  split; [exact Hmain|]. split.
  - intros w1 w2 E. unfold isReady, bind, member. rewrite E.
    destruct (strcmp _ _); reflexivity.
  - intros w p Hs _. destruct (Hmain w [] Hs) as (b & Hb & Hiff).
    destruct b; [|exact Hb]. exfalso. apply (proj1 Hiff); reflexivity.
Qed.

(** An object with an empty SSID and the password secretpw is not
    ready; one with the SSID Home is. *)
Lemma isReady_iff_ssid_nonempty_witness :
  isReady (mkWorld (constructed zeroed
                      (mk_wifi_info (repeat x00 33) (lit "secretpw"%string ++ repeat x00 55)))
             blank [])
  = Some (false,
          mkWorld (constructed zeroed
                     (mk_wifi_info (repeat x00 33) (lit "secretpw"%string ++ repeat x00 55)))
            blank []) /\
  exists b,
    isReady (mkWorld (constructed zeroed
                        (mk_wifi_info (lit "Home"%string ++ repeat x00 28) (repeat x00 64)))
               blank [])
    = Some (b, mkWorld (constructed zeroed
                          (mk_wifi_info (lit "Home"%string ++ repeat x00 28) (repeat x00 64)))
                 blank []) /\
    (b = true <-> list_byte_of_string "Home"%string <> []).
Proof.
  split.
  - apply (proj2 (proj2 isReady_iff_ssid_nonempty)) with
      (p := list_byte_of_string "secretpw"%string); reflexivity.
  - apply (proj1 isReady_iff_ssid_nonempty). reflexivity.
Defined.

(** C2.  Whatever the medium holds, a [restore] that comes back leaves
    alone the client field whose persisted counterpart starts with
    [0xFF], whatever follows that byte, and after a [restore] that
    returned [true] a field whose counterpart starts with another byte
    holds the persisted string.  [restore] does come back, with [true],
    when the medium is ready and each persisted field starts with [0xFF]
    or holds a terminator. *)
Theorem restore_passes_over_erased_fields w :
  (forall r w',
     restore w = Some (r, w') ->
     (first_cell (ssid (persisted (EEPROM w))) = xff ->
      ssid (client_config (this w')) = ssid (client_config (this w))) /\
     (first_cell (password (persisted (EEPROM w))) = xff ->
      password (client_config (this w')) = password (client_config (this w))) /\
     (r = true -> first_cell (ssid (persisted (EEPROM w))) <> xff ->
      seen getSSID w' = c_str (ssid (persisted (EEPROM w)))) /\
     (r = true -> first_cell (password (persisted (EEPROM w))) <> xff ->
      seen getPassword w' = c_str (password (persisted (EEPROM w))))) /\
  (medium_ready w ->
   sized (client_config (this w)) ->
   loadable (ssid (persisted (EEPROM w))) ->
   loadable (password (persisted (EEPROM w))) ->
   exists w', restore w = Some (true, w')).
Proof.
  split.
  - intros r w' Hrun. apply restore_inv in Hrun. destruct r.
    + destruct Hrun as (_ & _ & _ & _ & Ts & Tp).
      split; [apply (taken_erased _ _ _ Ts)|].
      split; [apply (taken_erased _ _ _ Tp)|].
      split; intros _ Hne.
      * apply (taken_written _ _ _ Ts Hne).
      * apply (taken_written _ _ _ Tp Hne).
    + destruct Hrun as (_ & _ & ->). cbn.
      repeat split; solve [reflexivity | discriminate].
  - intros Hready Hsz Ls Lp.
    destruct (restore_ready w Hready Hsz Ls Lp) as (w' & Hrun & _). eauto.
Qed.

(** A medium whose two fields are the erased byte followed by Home and
    by secretpw: the cleared client record stays empty. *)
Lemma restore_passes_over_erased_fields_witness :
  exists w',
    restore (boot (mkEEPROM true
                     (xff :: lit "Home"%string ++ repeat x00 27
                        ++ xff :: lit "secretpw"%string) [] true))
    = Some (true, w') /\
    seen getSSID w' = Some [] /\ seen getPassword w' = Some [].
Proof.
  set (w := boot (mkEEPROM true
                    (xff :: lit "Home"%string ++ repeat x00 27
                       ++ xff :: lit "secretpw"%string) [] true)).
  destruct (restore_passes_over_erased_fields w) as [Hall Hdef].
  destruct Hdef as [w' Hrun].
  - right. reflexivity.
  - split; reflexivity.
  - left. reflexivity.
  - left. reflexivity.
  - exists w'. split; [exact Hrun|].
    destruct (Hall true w' Hrun) as (Hs & Hp & _).
    unfold seen, getSSID, getPassword, member.
    rewrite (Hs eq_refl), (Hp eq_refl). split; reflexivity.
Defined.

(** C3, as the code has it.  With a medium that is or can be
    initialised and holds a record whose SSID is a non-empty string that
    does not start with [0xFF], [configure] without [is_config] returns
    [true], and neither writes to the medium nor commits. *)
Theorem configure_ready_returns_true collector a p w :
  well_formed (this w) ->
  text_within (SSID_SIZE - 1) a -> text_within (PASSWORD_SIZE - 1) p ->
  medium_ready w ->
  strlen (ssid (persisted (EEPROM w))) <> None ->
  first_cell (ssid (persisted (EEPROM w))) <> x00 ->
  first_cell (ssid (persisted (EEPROM w))) <> xff ->
  loadable (password (persisted (EEPROM w))) ->
  exists w',
    configure collector a p false w = Some (true, w') /\
    EEPROM w' = EEPROM w /\
    existsb writes_medium (since w w') = false.
Proof.
  intros Hwf Ha Hp Hready Hstr Hne Hnx Lp.
  destruct (configure_restores collector a p w Hwf Ha Hp Hready
              (or_intror Hstr) Lp false)
    as (w1 & w2 & He1 & Hc1 & _ & _ & Hsz & _ & Hres & Hcfg).
  destruct Hres as (He2 & Hc2 & _ & _ & Ts & _).
  rewrite He1 in Ts.
  destruct (taken_written _ _ _ Ts Hnx) as [_ Hfirst].
  assert (Hnonnil : ssid (client_config (this w2)) <> []).
  { intros E. pose proof (taken_length _ _ _ Ts) as Hl.
    rewrite E, (proj1 Hsz) in Hl. discriminate. }
  destruct (isReady_run w2 Hnonnil) as (b & Hb & Hiff).
  assert (b = true) as ->.
  { destruct b; [reflexivity|]. exfalso. apply Hne.
    rewrite <- Hfirst. apply Hiff. reflexivity. }
  exists w2. split; [|split].
  - rewrite Hcfg. cbn [negb]. rewrite (bind_run _ _ _ _ _ Hb). reflexivity.
  - rewrite He2. exact He1.
  - rewrite (since_app w w2 ((if is_enable (this w1) then [] else [CallBegin EEPROM_SIZE])
                               ++ [CallGet 0])).
    + destruct (is_enable (this w1)); reflexivity.
    + rewrite Hc2, Hc1. reflexivity.
Qed.

(** A medium that holds Home / secretpw. *)
Lemma configure_ready_returns_true_witness :
  exists w',
    configure stub (lit "MyAP"%string) (lit "pass1234"%string) false
      (boot (mkEEPROM true (lit "Home"%string ++ repeat x00 28 ++ lit "secretpw"%string)
               [] true))
    = Some (true, w') /\
    EEPROM w' = mkEEPROM true (lit "Home"%string ++ repeat x00 28 ++ lit "secretpw"%string)
                  [] true /\
    existsb writes_medium
      (since (boot (mkEEPROM true
                      (lit "Home"%string ++ repeat x00 28 ++ lit "secretpw"%string)
                      [] true)) w') = false.
Proof.
  apply (configure_ready_returns_true stub (lit "MyAP"%string) (lit "pass1234"%string)
           (boot (mkEEPROM true
                    (lit "Home"%string ++ repeat x00 28 ++ lit "secretpw"%string)
                    [] true))).
  - split; split; reflexivity.
  - exists 4. split; [reflexivity | vm_compute; lia].
  - exists 8. split; [reflexivity | vm_compute; lia].
  - right. reflexivity.
  - vm_compute. discriminate.
  - vm_compute. discriminate.
  - vm_compute. discriminate.
  - right. vm_compute. discriminate.
Defined.

(** C3 as stated fails: a client record whose SSID is the byte [0xFF]
    followed by home is persisted by [store]; on the next start
    [configure] passes that SSID over, finds the object not ready and
    returns [false]. *)
Lemma configure_not_ready_for_ssid_starting_with_erased_byte :
  exists w1 w',
    bind (setClientConfig (xff :: lit "home"%string) (lit "password"%string))
      (fun _ => store) (boot blank) = Some (true, w1) /\
    c_str (ssid (persisted (EEPROM w1))) = Some (xff :: list_byte_of_string "home"%string) /\
    usable (EEPROM w1) = true /\
    configure stub (lit "MyAP"%string) (lit "pass1234"%string) false (boot (EEPROM w1))
      = Some (false, w').
Proof.
  eexists _, _. split; [vm_compute; reflexivity|].
  split; [vm_compute; reflexivity|].
  split; [reflexivity|].
  vm_compute. reflexivity.
Qed.

Section RoundTrip.

(** What [store] leaves on a usable medium. *)
Lemma store_persists w :
  sized (client_config (this w)) ->
  usable (EEPROM w) = true ->
  exists w1,
    store w = Some (true, w1) /\
    usable (EEPROM w1) = true /\
    persisted (EEPROM w1) = client_config (this w) /\
    client_config (this w1) = client_config (this w).
Proof.
  intros Hsz Hus. eexists. split; [apply store_run; right; exact Hus|].
  cbn [EEPROM this]. split; [|split].
  - unfold Medium.committed, Medium.staged.
    destruct (flushes (EEPROM w)); cbn; exact Hus.
  - rewrite persisted_committed. apply persisted_staged, Hsz.
  - reflexivity.
Qed.

Lemma c_str_strlen a b s : c_str a = c_str b -> c_str b = Some s -> strlen a <> None.
Proof.
  intros E Hb Hn. rewrite Hb in E. unfold c_str in E. rewrite Hn in E. discriminate.
Qed.

Lemma text_c_str bound src : text_within bound src -> exists s, c_str src = Some s.
Proof. intros (n & Hn & _). unfold c_str. rewrite Hn. cbn. eauto. Qed.

End RoundTrip.

(** C4, as the code has it.  A client SSID and password that fit their
    arrays and do not start with [0xFF] are assigned and stored on a
    usable medium; [restore] on another object, newly constructed over the
    same medium, gives back the two strings. *)
Theorem store_restore_round_trip s p w junk_ap junk_client :
  sized (client_config (this w)) ->
  sized junk_client ->
  text_within (SSID_SIZE - 1) s -> text_within (PASSWORD_SIZE - 1) p ->
  first_cell s <> xff -> first_cell p <> xff ->
  usable (EEPROM w) = true ->
  exists w1 w2,
    bind (setClientConfig s p) (fun _ => store) w = Some (true, w1) /\
    restore (with_object (constructed junk_ap junk_client) w1) = Some (true, w2) /\
    seen getSSID w2 = c_str s /\
    seen getPassword w2 = c_str p.
Proof.
  intros Hsz Hjunk Hs Hp Fs Fp Hus.
  destruct (setClientConfig_run s p w Hsz Hs Hp)
    as (t & Rset & [Cs Fs'] & [Cp Fp'] & Hsz' & _ & _).
  destruct (store_persists (with_object t w) Hsz' Hus) as (w1 & Rst & Hus1 & Hper & _).
  cbn [this with_object] in Hper.
  destruct (text_c_str _ _ Hs) as [ss Hss]. destruct (text_c_str _ _ Hp) as [pp Hpp].
  set (wf := with_object (constructed junk_ap junk_client) w1).
  assert (Hready : medium_ready wf) by (right; exact Hus1).
  assert (Ls : loadable (ssid (persisted (EEPROM wf)))).
  { right. cbn [EEPROM wf with_object]. rewrite Hper. exact (c_str_strlen _ _ _ Cs Hss). }
  assert (Lp : loadable (password (persisted (EEPROM wf)))).
  { right. cbn [EEPROM wf with_object]. rewrite Hper. exact (c_str_strlen _ _ _ Cp Hpp). }
  destruct (restore_ready wf Hready Hjunk Ls Lp) as (w2 & Rre & Hres).
  destruct Hres as (_ & _ & _ & _ & Ts & Tp).
  cbn [EEPROM wf with_object] in Ts, Tp. rewrite Hper in Ts, Tp.
  exists w1, w2. split; [|split; [exact Rre|]].
  - rewrite (bind_run _ _ _ _ _ Rset). exact Rst.
  - rewrite <- Fs' in Fs. rewrite <- Fp' in Fp.
    destruct (taken_written _ _ _ Ts Fs) as [Es _].
    destruct (taken_written _ _ _ Tp Fp) as [Ep _].
    unfold seen, getSSID, getPassword, member. rewrite Es, Ep. auto.
Qed.

(** Home / secretpw, stored from a started object and read back into
    another whose storage held other text. *)
Lemma store_restore_round_trip_witness :
  exists w1 w2,
    bind (setClientConfig (lit "Home"%string) (lit "secretpw"%string))
      (fun _ => store) (boot blank) = Some (true, w1) /\
    restore (with_object
               (constructed zeroed
                  (mk_wifi_info (lit "Cafe"%string ++ repeat x30 28)
                     (lit "12345678"%string ++ repeat x30 55))) w1)
      = Some (true, w2) /\
    seen getSSID w2 = Some (list_byte_of_string "Home"%string) /\
    seen getPassword w2 = Some (list_byte_of_string "secretpw"%string).
Proof.
  apply (store_restore_round_trip (lit "Home"%string) (lit "secretpw"%string) (boot blank)
           zeroed
           (mk_wifi_info (lit "Cafe"%string ++ repeat x30 28)
              (lit "12345678"%string ++ repeat x30 55))).
  - split; reflexivity.
  - split; reflexivity.
  - exists 4. split; [reflexivity | vm_compute; lia].
  - exists 8. split; [reflexivity | vm_compute; lia].
  - vm_compute. discriminate.
  - vm_compute. discriminate.
  - reflexivity.
Defined.

(** C4 as stated fails: the SSID made of the single byte [0xFF] fits its
    array and is stored, but [restore] on a new object passes it over and
    leaves the SSID empty. *)
Lemma round_trip_loses_ssid_starting_with_erased_byte :
  text_within (SSID_SIZE - 1) [xff; x00] /\
  text_within (PASSWORD_SIZE - 1) (lit "password"%string) /\
  exists w1 w2,
    bind (setClientConfig [xff; x00] (lit "password"%string))
      (fun _ => store) (boot blank) = Some (true, w1) /\
    seen getSSID w1 = Some [xff] /\
    restore (with_object fresh w1) = Some (true, w2) /\
    seen getSSID w2 = Some [] /\
    seen getSSID w2 <> c_str [xff; x00].
Proof.
  split; [exists 1; split; [reflexivity | vm_compute; lia]|].
  split; [exists 8; split; [reflexivity | vm_compute; lia]|].
  eexists _, _. split; [vm_compute; reflexivity|].
  split; [vm_compute; reflexivity|].
  split; [vm_compute; reflexivity|].
  split; [vm_compute; reflexivity|].
  vm_compute. discriminate.
Qed.

(** ** Frames of the methods *)

Section Quiet.

Lemma quiet_refl w : quiet w w.
Proof. split; [reflexivity|]. exists []. rewrite app_nil_r. auto. Qed.

Lemma quiet_trans w1 w2 w3 : quiet w1 w2 -> quiet w2 w3 -> quiet w1 w3.
Proof.
  intros [E1 (d1 & C1 & Q1)] [E2 (d2 & C2 & Q2)].
  split; [congruence|]. exists (d1 ++ d2).
  rewrite C2, C1, app_assoc, existsb_app, Q1, Q2. auto.
Qed.

Lemma quiet_strcpy_to f src : keeps quiet (strcpy_to f src).
Proof.
  intros w a w' H. unfold strcpy_to in H.
  destruct (strcpy _ _); [|discriminate]. inversion H; subst.
  split; [reflexivity|]. exists []. cbn. rewrite app_nil_r. auto.
Qed.

Lemma quiet_enabled_or_init : keeps quiet enabled_or_init.
Proof.
  intros w a w' H. rewrite enabled_or_init_run in H. inversion H; subst.
  destruct (is_enable (this w)); [apply quiet_refl|].
  split; [reflexivity|]. exists [CallBegin EEPROM_SIZE]. auto.
Qed.

Lemma quiet_EEPROM_get address : keeps quiet (EEPROM_get address).
Proof.
  intros w a w' H. inversion H; subst.
  split; [reflexivity|]. exists [CallGet address]. auto.
Qed.

Lemma quiet_collector_stub :
  keeps quiet
    (bind (get stub)
       (fun changed =>
          bind (if changed then bind store (fun _ => ret tt) else ret tt)
            (fun _ => ret false))).
Proof.
  intros w a w' H. rewrite (bind_run _ _ _ _ _ (get_run stub w)) in H.
  inversion H; subst.
  split; [reflexivity|]. exists [CallCollector]. auto.
Qed.

Lemma quiet_configure a p f : keeps quiet (configure stub a p f).
Proof.
  apply (keeps_configure quiet quiet_refl quiet_trans quiet_strcpy_to
           quiet_enabled_or_init quiet_EEPROM_get), quiet_collector_stub.
Qed.

End Quiet.

(** C9.  The [get] of the repository answers [false] whatever the object
    holds, so a [configure] that comes back has left every cell of the
    medium, staged and flushed, as it was, and has neither called
    [EEPROM.put] nor [EEPROM.commit]. *)
Theorem configure_with_stub_never_writes :
  (forall w, exists w', get stub w = Some (false, w')) /\
  (forall a p f w r w',
     configure stub a p f w = Some (r, w') ->
     EEPROM w' = EEPROM w /\
     existsb writes_medium (since w w') = false).
Proof.
  split.
  - intros w. rewrite get_run. eauto.
  - intros a p f w r w' H.
    destruct (quiet_configure a p f w r w' H) as [He (d & Hc & Hq)].
    split; [exact He|]. rewrite (since_app w w' d Hc). exact Hq.
Qed.

(** A first start with nothing on the medium: the collector branch is
    taken and the medium stays blank. *)
Lemma configure_with_stub_never_writes_witness :
  exists w',
    configure stub (lit "MyAP"%string) (lit "pass1234"%string) false (boot blank)
      = Some (false, w') /\
    EEPROM w' = blank /\
    since (boot blank) w' = [CallBegin EEPROM_SIZE; CallGet 0; CallCollector] /\
    existsb writes_medium (since (boot blank) w') = false.
Proof.
  eexists. split; [vm_compute; reflexivity|].
  split; [|split].
  - eapply (proj2 configure_with_stub_never_writes
              (lit "MyAP"%string) (lit "pass1234"%string) false (boot blank)).
    vm_compute. reflexivity.
  - vm_compute. reflexivity.
  - eapply (proj2 configure_with_stub_never_writes
              (lit "MyAP"%string) (lit "pass1234"%string) false (boot blank)).
    vm_compute. reflexivity.
Defined.

Section Flag.

Lemma flag_step_refl w : flag_step w w.
Proof.
  exists []. rewrite app_nil_r. split; [reflexivity|]. split; [auto|].
  intros H1 H2. congruence.
Qed.

Lemma flag_step_trans w1 w2 w3 : flag_step w1 w2 -> flag_step w2 w3 -> flag_step w1 w3.
Proof.
  intros (d1 & C1 & K1 & S1) (d2 & C2 & K2 & S2).
  exists (d1 ++ d2). split; [rewrite C2, C1, app_assoc; reflexivity|].
  split; [auto|]. intros H1 H3. apply in_or_app.
  destruct (is_enable (this w2)) eqn:E2; [left | right]; auto.
Qed.

(** A step that leaves the flag alone. *)
Lemma flag_step_same w w' d :
  calls w' = calls w ++ d -> is_enable (this w') = is_enable (this w) ->
  flag_step w w'.
Proof.
  intros Hc He. exists d. split; [exact Hc|]. rewrite He.
  split; [auto|]. intros H1 H2. congruence.
Qed.

Lemma is_enable_field_set f v t : is_enable (field_set f v t) = is_enable t.
Proof. destruct f; reflexivity. Qed.

Lemma flag_strcpy_to f src : keeps flag_step (strcpy_to f src).
Proof.
  intros w a w' H. unfold strcpy_to in H.
  destruct (strcpy _ _); [|discriminate]. inversion H; subst.
  apply (flag_step_same _ _ []); cbn;
    [symmetry; apply app_nil_r | apply is_enable_field_set].
Qed.

Lemma flag_enabled_or_init : keeps flag_step enabled_or_init.
Proof.
  intros w a w' H. rewrite enabled_or_init_run in H. inversion H; subst.
  destruct (is_enable (this w)) eqn:Hen; [apply flag_step_refl|].
  exists [CallBegin EEPROM_SIZE]. cbn. rewrite Hen.
  split; [reflexivity|]. split; [discriminate|]. auto.
Qed.

Lemma flag_EEPROM_get address : keeps flag_step (EEPROM_get address).
Proof.
  intros w a w' H. inversion H; subst.
  apply (flag_step_same _ _ [CallGet address]); reflexivity.
Qed.

Lemma flag_EEPROM_put address i : keeps flag_step (EEPROM_put address i).
Proof.
  intros w a w' H. inversion H; subst.
  apply (flag_step_same _ _ [CallPut address]); reflexivity.
Qed.

Lemma flag_EEPROM_commit : keeps flag_step EEPROM_commit.
Proof.
  intros w a w' H. inversion H; subst.
  apply (flag_step_same _ _ [CallCommit]); reflexivity.
Qed.

Lemma flag_get_stub : keeps flag_step (get stub).
Proof.
  intros w a w' H. rewrite get_run in H. inversion H; subst.
  apply (flag_step_same _ _ [CallCollector]); reflexivity.
Qed.

Lemma flag_restore : keeps flag_step restore.
Proof.
  apply (keeps_restore flag_step flag_step_refl flag_step_trans flag_strcpy_to
           flag_enabled_or_init flag_EEPROM_get).
Qed.

Lemma flag_store : keeps flag_step store.
Proof.
  apply (keeps_store flag_step flag_step_refl flag_step_trans
           flag_enabled_or_init flag_EEPROM_put flag_EEPROM_commit).
Qed.

Lemma flag_configure a p f : keeps flag_step (configure stub a p f).
Proof.
  apply (keeps_configure flag_step flag_step_refl flag_step_trans flag_strcpy_to
           flag_enabled_or_init flag_EEPROM_get).
  apply (keeps_bind flag_step flag_step_trans); [apply flag_get_stub | intros changed].
  apply (keeps_bind flag_step flag_step_trans);
    [| intros _; apply (keeps_ret flag_step flag_step_refl)].
  apply keeps_if; [| apply (keeps_ret flag_step flag_step_refl)].
  apply (keeps_bind flag_step flag_step_trans);
    [apply flag_store | intros _; apply (keeps_ret flag_step flag_step_refl)].
Qed.

Ltac with_ret R refl trans :=
  apply (keeps_bind R trans); [| intros ?; apply (keeps_ret R refl)].

Lemma flag_invoke m : keeps flag_step (invoke m).
Proof.
  destruct m; cbn [invoke];
    try with_ret flag_step flag_step_refl flag_step_trans.
  - apply flag_configure.
  - apply (keeps_member flag_step flag_step_refl).
  - apply (keeps_member flag_step flag_step_refl).
  - apply (keeps_member flag_step flag_step_refl).
  - apply (keeps_member flag_step flag_step_refl).
  - apply flag_restore.
  - apply flag_store.
  - apply (keeps_setAPConfig flag_step flag_step_trans flag_strcpy_to).
  - apply (keeps_setClientConfig flag_step flag_step_trans flag_strcpy_to).
  - apply (keeps_isReady flag_step flag_step_refl).
  - apply flag_get_stub.
Qed.

Lemma flag_untouched_refl w : flag_untouched w w.
Proof. reflexivity. Qed.

Lemma flag_untouched_trans w1 w2 w3 :
  flag_untouched w1 w2 -> flag_untouched w2 w3 -> flag_untouched w1 w3.
Proof. unfold flag_untouched. congruence. Qed.

Lemma untouched_strcpy_to f src : keeps flag_untouched (strcpy_to f src).
Proof.
  intros w a w' H. unfold strcpy_to in H.
  destruct (strcpy _ _); [|discriminate]. inversion H; subst.
  apply is_enable_field_set.
Qed.

(** Outside [configure], [restore] and [store] no method assigns the
    flag. *)
Lemma untouched_invoke m :
  accesses_medium m = false -> keeps flag_untouched (invoke m).
Proof.
  destruct m; cbn [accesses_medium invoke]; intros Hm; try discriminate;
    try with_ret flag_untouched flag_untouched_refl flag_untouched_trans.
  - apply (keeps_member flag_untouched flag_untouched_refl).
  - apply (keeps_member flag_untouched flag_untouched_refl).
  - apply (keeps_member flag_untouched flag_untouched_refl).
  - apply (keeps_member flag_untouched flag_untouched_refl).
  - apply (keeps_setAPConfig flag_untouched flag_untouched_trans untouched_strcpy_to).
  - apply (keeps_setClientConfig flag_untouched flag_untouched_trans untouched_strcpy_to).
  - apply (keeps_isReady flag_untouched flag_untouched_refl).
  - intros w a w' H. rewrite get_run in H. inversion H; subst. reflexivity.
Qed.

End Flag.

(** C8.  [is_enable] is a latch.  A constructed object has it unset.
    Whatever method is invoked, in whatever state of the medium, a flag
    that was set is still set afterwards, and a flag that went from unset
    to set did so in [configure], [restore] or [store], with a call of
    [EEPROM.begin] made on the way.  So along the whole life of an
    object, once the flag is set it stays set. *)
Theorem is_enable_is_a_latch :
  (forall junk_ap junk_client, is_enable (constructed junk_ap junk_client) = false) /\
  (forall m w w',
     invoke m w = Some (tt, w') ->
     (is_enable (this w) = true -> is_enable (this w') = true) /\
     (is_enable (this w) = false -> is_enable (this w') = true ->
      accesses_medium m = true /\ In (CallBegin EEPROM_SIZE) (since w w'))) /\
  (forall t0 t, lifetime t0 t -> is_enable t0 = true -> is_enable t = true).
Proof.
  assert (Hstep : forall m w w',
     invoke m w = Some (tt, w') ->
     (is_enable (this w) = true -> is_enable (this w') = true) /\
     (is_enable (this w) = false -> is_enable (this w') = true ->
      accesses_medium m = true /\ In (CallBegin EEPROM_SIZE) (since w w'))).
  { intros m w w' H.
    destruct (flag_invoke m w tt w' H) as (d & Hc & Hkeep & Hset).
    split; [exact Hkeep|]. intros Hoff Hon. split.
    - destruct (accesses_medium m) eqn:Hm; [reflexivity|].
      pose proof (untouched_invoke m Hm w tt w' H) as Hsame.
      unfold flag_untouched in Hsame. congruence.
    - rewrite (since_app w w' d Hc). auto. }
  split; [reflexivity|]. split; [exact Hstep|].
  intros t0 t Hlife. induction Hlife as [|t m e l w' Hlife IH Hrun]; [auto|].
  intros Hon. apply (proj1 (Hstep m _ w' Hrun)). cbn. auto.
Qed.

(** A first start on a blank medium sets the flag in [configure]; a
    later [store] on the medium gone bad leaves it set. *)
Lemma is_enable_is_a_latch_witness :
  match invoke (Configure (lit "MyAP"%string) (lit "pass1234"%string) false) (boot blank) with
  | Some (_, w1) =>
      is_enable (this w1) = true /\
      In (CallBegin EEPROM_SIZE) (since (boot blank) w1) /\
      match invoke Store (mkWorld (this w1) broken []) with
      | Some (_, w2) => is_enable (this w2) = true /\ lifetime fresh (this w2)
      | None => False
      end
  | None => False
  end.
Proof.
  destruct is_enable_is_a_latch as (_ & Hstep & Hlife).
  destruct (invoke (Configure _ _ false) (boot blank)) as [[[] w1]|] eqn:H1;
    [| vm_compute in H1; discriminate].
  assert (Hon : is_enable (this w1) = true).
  { pose proof H1 as Hc. vm_compute in Hc. injection Hc as Hw1.
    rewrite <- Hw1. reflexivity. }
  split; [exact Hon|].
  split; [apply (proj2 (Hstep _ _ _ H1) eq_refl Hon)|].
  destruct (invoke Store (mkWorld (this w1) broken [])) as [[[] w2]|] eqn:H2.
  - split; [apply (proj1 (Hstep _ _ _ H2)); exact Hon|].
    apply (lifetime_invoke fresh (this w1) Store broken [] w2); [|exact H2].
    apply (lifetime_invoke fresh fresh
             (Configure (lit "MyAP"%string) (lit "pass1234"%string) false) blank [] w1);
      [apply lifetime_start | exact H1].
  - cbn [invoke] in H2.
    destruct (store_total (mkWorld (this w1) broken [])) as (r & w2 & Hs).
    rewrite (bind_run _ _ _ _ _ Hs) in H2. discriminate.
Defined.

(** ** Every outcome of the methods *)

Section Inversions.

Lemma strcpy_to_inv f src w u w' :
  strcpy_to f src w = Some (u, w') ->
  exists v, strcpy (field_get f (this w)) src = Some v /\
            w' = with_object (field_set f v (this w)) w.
Proof.
  unfold strcpy_to. destruct (strcpy _ _) as [v|]; [|discriminate].
  intros H. inversion H; subst. exists v. split; reflexivity.
Qed.

Lemma setAPConfig_inv a p w u w' :
  setAPConfig a p w = Some (u, w') ->
  exists v1 v2,
    strcpy (ssid (ap_config (this w))) a = Some v1 /\
    strcpy (password (ap_config (this w))) p = Some v2 /\
    w' = with_object
           (mkManager (mk_wifi_info v1 v2) (client_config (this w)) (is_enable (this w))) w.
Proof.
  intros H. unfold setAPConfig in H.
  destruct (bind_inv _ _ _ _ _ H) as ([] & w0 & H0 & H1).
  destruct (strcpy_to_inv _ _ _ _ _ H0) as (v1 & S1 & ->).
  destruct (strcpy_to_inv _ _ _ _ _ H1) as (v2 & S2 & ->).
  exists v1, v2. cbn [field_get field_set this with_object ap_config client_config ssid password] in S2. auto.
Qed.

Lemma setClientConfig_inv s p w u w' :
  setClientConfig s p w = Some (u, w') ->
  exists v1 v2,
    strcpy (ssid (client_config (this w))) s = Some v1 /\
    strcpy (password (client_config (this w))) p = Some v2 /\
    w' = with_object
           (mkManager (ap_config (this w)) (mk_wifi_info v1 v2) (is_enable (this w))) w.
Proof.
  intros H. unfold setClientConfig in H.
  destruct (bind_inv _ _ _ _ _ H) as ([] & w0 & H0 & H1).
  destruct (strcpy_to_inv _ _ _ _ _ H0) as (v1 & S1 & ->).
  destruct (strcpy_to_inv _ _ _ _ _ H1) as (v2 & S2 & ->).
  exists v1, v2. cbn [field_get field_set this with_object ap_config client_config ssid password] in S2. auto.
Qed.

Lemma first_cell_empty : first_cell empty = x00.
Proof. reflexivity. Qed.

Lemma assignments_inv a p w u0 w0 u1 w1 :
  setAPConfig a p w = Some (u0, w0) ->
  setClientConfig empty empty w0 = Some (u1, w1) ->
  assigned a p w w1.
Proof.
  intros H0 H1.
  destruct (setAPConfig_inv _ _ _ _ _ H0) as (a1 & a2 & A1 & A2 & ->).
  destruct (setClientConfig_inv _ _ _ _ _ H1) as (c1 & c2 & C1 & C2 & ->).
  cbn [this with_object client_config ap_config is_enable] in C1, C2.
  unfold assigned. cbn [this with_object client_config ap_config is_enable EEPROM calls ssid password].
  repeat split.
  - apply (strcpy_c_str _ _ _ A1).
  - apply (strcpy_c_str _ _ _ A2).
  - apply (strcpy_first_cell _ _ _ C1).
  - apply (strcpy_first_cell _ _ _ C2).
  - apply (strcpy_c_str _ _ _ C1).
  - apply (strcpy_c_str _ _ _ C2).
Qed.

Lemma isReady_inv w b w' :
  isReady w = Some (b, w') ->
  w' = w /\ (b = false <-> first_cell (ssid (client_config (this w))) = x00).
Proof.
  intros H.
  assert (Hne : ssid (client_config (this w)) <> []).
  { intros E. unfold isReady, bind, member in H. rewrite E in H. discriminate. }
  destruct (isReady_run w Hne) as (b' & Hb & Hiff).
  rewrite Hb in H. inversion H; subst. auto.
Qed.

Lemma restore_true_ready w w' : restore w = Some (true, w') -> medium_ready w.
Proof.
  intros H. unfold restore in H.
  destruct (bind_inv _ _ _ _ _ H) as (ok & w1 & H1 & H2).
  rewrite enabled_or_init_run in H1. inversion H1 as [[Hok Hw1]].
  destruct ok; cbn [negb] in H2; [|inversion H2].
  unfold medium_ready. apply orb_true_iff. exact Hok.
Qed.

(** What [store] gives, in every world. *)
Lemma store_outcome w :
  exists w',
    store w = Some (is_enable (this w) || usable (EEPROM w), w') /\
    is_enable (this w') = is_enable (this w) || usable (EEPROM w) /\
    ap_config (this w') = ap_config (this w) /\
    client_config (this w') = client_config (this w) /\
    usable (EEPROM w') = usable (EEPROM w) /\
    exists d, calls w' = calls w ++ d.
Proof.
  destruct (is_enable (this w)) eqn:Hen; [|destruct (usable (EEPROM w)) eqn:Hus];
    cbn [orb].
  - eexists. split; [apply store_run; left; exact Hen|]. cbn.
    rewrite Hen. repeat split; eauto.
    unfold Medium.committed, Medium.staged. destruct (flushes (EEPROM w)); reflexivity.
  - eexists. split; [apply store_run; right; exact Hus|]. cbn.
    rewrite Hen. repeat split; eauto.
    unfold Medium.committed, Medium.staged. destruct (flushes (EEPROM w)); cbn; auto.
  - eexists. split; [apply store_failed; assumption|]. cbn.
    repeat split; eauto.
Qed.

(** Every way through [configure]. *)
Lemma configure_inv collector a p f w r w' :
  configure collector a p f w = Some (r, w') ->
  exists w1,
    assigned a p w w1 /\
    ((r = false /\ is_enable (this w) = false /\ usable (EEPROM w) = false /\
      w' = mkWorld (this w1) (EEPROM w) (calls w ++ [CallBegin EEPROM_SIZE]))
     \/
     exists w2,
       restore w1 = Some (true, w2) /\ restored w1 w2 /\
       ((r = true /\ f = false /\ isReady w2 = Some (true, w2) /\ w' = w2)
        \/
        (r = false /\ (f = true \/ isReady w2 = Some (false, w2)) /\
         collect_and_store collector w2 = Some (false, w')))).
Proof.
  intros H. unfold configure in H.
  destruct (bind_inv _ _ _ _ _ H) as (u0 & w0 & R0 & H0). clear H.
  destruct (bind_inv _ _ _ _ _ H0) as (u1 & w1 & R1 & H1). clear H0.
  destruct (bind_inv _ _ _ _ _ H1) as (ok & w2 & R2 & H2). clear H1.
  pose proof (assignments_inv _ _ _ _ _ _ _ R0 R1) as Has.
  exists w1. split; [exact Has|].
  destruct Has as (He & Hc & Hi & _).
  pose proof (restore_inv _ _ _ R2) as Hres.
  destruct ok; cbn [negb] in H2.
  - right. exists w2. split; [exact R2|]. split; [exact Hres|].
    destruct (bind_inv _ _ _ _ _ H2) as (ready & w3 & R3 & H3). clear H2.
    destruct f; cbn [negb] in R3.
    + inversion R3; subst ready w3. right.
      assert (r = false) as ->.
      { unfold collect_and_store in *.
        destruct (bind_inv _ _ _ _ _ H3) as (ch & w4 & _ & H4).
        destruct (bind_inv _ _ _ _ _ H4) as (u & w5 & _ & H5).
        inversion H5. reflexivity. }
      split; [reflexivity|]. split; [left; reflexivity | exact H3].
    + destruct (isReady_inv _ _ _ R3) as [-> _].
      destruct ready.
      * inversion H3; subst. left. auto.
      * right.
        assert (r = false) as ->.
        { destruct (bind_inv _ _ _ _ _ H3) as (ch & w4 & _ & H4).
          destruct (bind_inv _ _ _ _ _ H4) as (u & w5 & _ & H5).
          inversion H5. reflexivity. }
        split; [reflexivity|]. split; [right; exact R3 | exact H3].
  - left. destruct Hres as (Hen & Hus & ->). inversion H2; subst r w'.
    rewrite Hi in Hen. rewrite He in Hus. rewrite He, Hc. auto.
Qed.

(** Every way through the statements behind the readiness test. *)
Lemma collect_and_store_inv collector w r w' :
  collect_and_store collector w = Some (r, w') ->
  r = false /\
  ((fst (collector (this w)) = false /\
    w' = mkWorld (snd (collector (this w))) (EEPROM w) (calls w ++ [CallCollector]))
   \/
   (fst (collector (this w)) = true /\
    exists rs,
      store (mkWorld (snd (collector (this w))) (EEPROM w) (calls w ++ [CallCollector]))
      = Some (rs, w'))).
Proof.
  intros H. unfold collect_and_store in H.
  rewrite (bind_run _ _ _ _ _ (get_run collector w)) in H.
  destruct (fst (collector (this w))).
  - destruct (bind_inv _ _ _ _ _ H) as ([] & w1 & H1 & H2).
    destruct (bind_inv _ _ _ _ _ H1) as (rs & w2 & H3 & H4).
    inversion H4; subst. inversion H2; subst. split; [reflexivity|]. right. eauto.
  - inversion H; subst. split; [reflexivity|]. left. auto.
Qed.

End Inversions.

(** ** Further properties *)

Section ReadyPath.

(** The only way for [configure] to answer [true]. *)
Lemma configure_true_path collector a p f w w' :
  configure collector a p f w = Some (true, w') ->
  exists w1,
    assigned a p w w1 /\ restore w1 = Some (true, w') /\ restored w1 w' /\
    f = false /\
    first_cell (ssid (persisted (EEPROM w))) <> x00 /\
    first_cell (ssid (persisted (EEPROM w))) <> xff.
Proof.
  intros H.
  destruct (configure_inv _ _ _ _ _ _ _ H) as (w1 & Has & Hcase).
  exists w1. split; [exact Has|].
  destruct Has as (He & _ & _ & _ & _ & Cs & _).
  destruct Hcase as [(Hr & _) | (w2 & R2 & Hres & Hcase)]; [discriminate|].
  destruct Hcase as [(_ & -> & Hrdy & ->) | (Hr & _)]; [|discriminate].
  split; [exact R2|]. split; [exact Hres|]. split; [reflexivity|].
  destruct Hres as (_ & _ & _ & _ & Ts & _). rewrite He in Ts.
  destruct (isReady_inv _ _ _ Hrdy) as [_ Hiff].
  assert (Hnz : first_cell (ssid (client_config (this w2))) <> x00).
  { intros E. apply Hiff in E. discriminate. }
  assert (Hnx : first_cell (ssid (persisted (EEPROM w))) <> xff).
  { intros E. apply Hnz. rewrite (taken_erased _ _ _ Ts E). exact Cs. }
  split; [|exact Hnx].
  rewrite <- (proj2 (taken_written _ _ _ Ts Hnx)). exact Hnz.
Qed.


End ReadyPath.

(** X1.  Whatever the collector does, a [configure] that comes back
    returns [true] exactly when configuration was not forced, the medium
    is or can be initialised, and the SSID field on the medium starts
    neither with the terminator nor with [0xFF].  What the object held
    in memory before the call plays no part. *)
Theorem configure_returns_true_iff collector a p f w r w' :
  configure collector a p f w = Some (r, w') ->
  (r = true <->
   f = false /\ medium_ready w /\
   first_cell (ssid (persisted (EEPROM w))) <> x00 /\
   first_cell (ssid (persisted (EEPROM w))) <> xff).
Proof.
  intros H. split.
  - intros ->.
    destruct (configure_true_path _ _ _ _ _ _ H)
      as (w1 & (He & _ & Hi & _) & R2 & _ & Hf & Hnz & Hnx).
    pose proof (restore_true_ready _ _ R2) as Hr.
    unfold medium_ready in *. rewrite Hi, He in Hr. auto.
  - intros (Hf & Hready & Hnz & Hnx).
    destruct (configure_inv _ _ _ _ _ _ _ H)
      as (w1 & (He & _ & _) & Hcase).
    destruct Hcase as [(_ & Hen & Hus & _) | (w2 & R2 & Hres & Hcase)].
    + destruct Hready; congruence.
    + destruct Hcase as [(-> & _) | (_ & Hwhy & _)]; [reflexivity|]. exfalso.
      destruct Hres as (_ & _ & _ & _ & Ts & _). rewrite He in Ts.
      destruct Hwhy as [Hforce | Hnot]; [congruence|].
      destruct (isReady_inv _ _ _ Hnot) as [_ Hiff].
      apply Hnz. rewrite <- (proj2 (taken_written _ _ _ Ts Hnx)).
      apply Hiff. reflexivity.
Qed.

(** An object that holds Home in memory, on a blank medium: not
    ready. *)
Lemma configure_returns_true_iff_witness :
  ~ (false = false /\
     medium_ready (mkWorld (constructed zeroed
                              (mk_wifi_info (lit "Home"%string ++ repeat x00 28)
                                 (lit "secretpw"%string ++ repeat x00 55))) blank []) /\
     first_cell (ssid (persisted blank)) <> x00 /\
     first_cell (ssid (persisted blank)) <> xff).
Proof.
  intros Hcond.
  assert (Hrun : exists w',
    configure stub (lit "MyAP"%string) (lit "pass1234"%string) false
      (mkWorld (constructed zeroed
                  (mk_wifi_info (lit "Home"%string ++ repeat x00 28)
                     (lit "secretpw"%string ++ repeat x00 55))) blank [])
    = Some (false, w')).
  { eexists. vm_compute. reflexivity. }
  destruct Hrun as [w' Hrun].
  pose proof (proj2 (configure_returns_true_iff _ _ _ _ _ _ _ Hrun) Hcond).
  discriminate.
Defined.

(** X2.  A [configure] that returns [true] has loaded the credentials and
    done nothing else: the SSID shown by [getSSID] is the non-empty string
    of the medium, the password is the one of the medium (empty when that
    field starts with [0xFF]), the flag is set, the collector was not
    called, the medium is as before. *)
Theorem configure_true_has_loaded collector a p f w w' :
  configure collector a p f w = Some (true, w') ->
  (exists c s, seen getSSID w' = Some (c :: s) /\
               c_str (ssid (persisted (EEPROM w))) = Some (c :: s)) /\
  (first_cell (password (persisted (EEPROM w))) <> xff ->
   seen getPassword w' = c_str (password (persisted (EEPROM w)))) /\
  (first_cell (password (persisted (EEPROM w))) = xff ->
   seen getPassword w' = Some []) /\
  is_enable (this w') = true /\
  ~ In CallCollector (since w w') /\
  existsb writes_medium (since w w') = false /\
  EEPROM w' = EEPROM w.
Proof.
  intros H.
  destruct (configure_true_path _ _ _ _ _ _ H)
    as (w1 & (He & Hc & Hi & _ & _ & _ & _ & _ & Cp) & _ & Hres & _ & Hnz & Hnx).
  destruct Hres as (He2 & Hc2 & _ & Hon & Ts & Tp). rewrite He in Ts, Tp.
  destruct (taken_written _ _ _ Ts Hnx) as [Es Fs].
  split; [|split; [|split; [|split; [|split; [|split]]]]].
  - unfold seen, getSSID, member. rewrite Es.
    destruct (c_str (ssid (persisted (EEPROM w)))) as [[|c s]|] eqn:E.
    + exfalso. apply Hnz. apply (c_str_nil_iff _ _ E). reflexivity.
    + eauto.
    + exfalso. unfold taken in Ts.
      destruct (Byte.eqb _ xff) eqn:Ex; [apply Byte.byte_dec_bl in Ex; congruence|].
      destruct (strcpy_inv _ _ _ Ts) as (n & Hn & _).
      unfold c_str in E. rewrite Hn in E. discriminate.
  - intros Hp. apply (taken_written _ _ _ Tp Hp).
  - intros Hp. unfold seen, getPassword, member.
    rewrite (taken_erased _ _ _ Tp Hp). exact Cp.
  - exact Hon.
  - rewrite (since_app w w' ((if is_enable (this w1) then [] else [CallBegin EEPROM_SIZE])
                               ++ [CallGet 0])) by (rewrite Hc2, Hc; reflexivity).
    destruct (is_enable (this w1)); cbn; intuition discriminate.
  - rewrite (since_app w w' ((if is_enable (this w1) then [] else [CallBegin EEPROM_SIZE])
                               ++ [CallGet 0])) by (rewrite Hc2, Hc; reflexivity).
    destruct (is_enable (this w1)); reflexivity.
  - rewrite He2. exact He.
Qed.

(** A medium with the SSID Home and an erased password field. *)
Lemma configure_true_has_loaded_witness :
  exists w',
    configure stub (lit "MyAP"%string) (lit "pass1234"%string) false
      (boot (mkEEPROM true (lit "Home"%string ++ repeat x00 28) [] true))
    = Some (true, w') /\
    seen getSSID w' = Some (list_byte_of_string "Home"%string) /\
    seen getPassword w' = Some [].
Proof.
  eexists. split; [vm_compute; reflexivity|].
  match goal with
  | |- seen getSSID ?w' = _ /\ _ =>
      destruct (configure_true_has_loaded stub (lit "MyAP"%string) (lit "pass1234"%string)
                  false (boot (mkEEPROM true (lit "Home"%string ++ repeat x00 28) [] true))
                  w')
        as ((c & s & Hs & Hm) & _ & Hp & _)
  end.
  - vm_compute. reflexivity.
  - split.
    + rewrite Hs, <- Hm. vm_compute. reflexivity.
    + apply Hp. vm_compute. reflexivity.
Defined.

(** X3.  With a collector that leaves the AP record alone, every
    [configure] that comes back, on whichever path, leaves in the AP
    record the two strings it was called with. *)
Theorem configure_sets_ap_record collector a p f w r w' :
  (forall t, ap_config (snd (collector t)) = ap_config t) ->
  configure collector a p f w = Some (r, w') ->
  seen getAPSSID w' = c_str a /\ seen getAPPassword w' = c_str p.
Proof.
  intros Hkeep H.
  destruct (configure_inv _ _ _ _ _ _ _ H)
    as (w1 & (_ & _ & _ & As & Ap & _) & Hcase).
  assert (Hap : ap_config (this w') = ap_config (this w1)).
  { destruct Hcase as [(_ & _ & _ & ->) | (w2 & _ & Hres & Hcase)]; [reflexivity|].
    destruct Hres as (_ & _ & Ha2 & _).
    destruct Hcase as [(_ & _ & _ & ->) | (_ & _ & Htail)]; [exact Ha2|].
    destruct (collect_and_store_inv _ _ _ _ Htail) as (_ & [(_ & ->) | (_ & rs & Hst)]).
    - cbn. rewrite Hkeep. exact Ha2.
    - destruct (store_outcome (mkWorld (snd (collector (this w2))) (EEPROM w2)
                                 (calls w2 ++ [CallCollector])))
        as (w3 & Hst' & _ & Ha3 & _).
      rewrite Hst' in Hst. inversion Hst; subst w3.
      rewrite Ha3. cbn. rewrite Hkeep. exact Ha2. }
  unfold seen, getAPSSID, getAPPassword, member. rewrite Hap. auto.
Qed.

(** The first start on a blank medium with a user who enters Home /
    secretpw: the AP record still reads MyAP / pass1234. *)
Lemma configure_sets_ap_record_witness :
  exists w',
    configure
      (fun t => (true, field_set client_password_f (lit "secretpw"%string ++ repeat x00 55)
                         (field_set client_ssid_f (lit "Home"%string ++ repeat x00 28) t)))
      (lit "MyAP"%string) (lit "pass1234"%string) false (boot blank)
    = Some (false, w') /\
    seen getAPSSID w' = Some (list_byte_of_string "MyAP"%string) /\
    seen getAPPassword w' = Some (list_byte_of_string "pass1234"%string).
Proof.
  eexists. split; [vm_compute; reflexivity|].
  eapply (configure_sets_ap_record
            (fun t => (true, field_set client_password_f (lit "secretpw"%string ++ repeat x00 55)
                         (field_set client_ssid_f (lit "Home"%string ++ repeat x00 28) t)))
            (lit "MyAP"%string) (lit "pass1234"%string) false (boot blank)).
  - intros t. reflexivity.
  - vm_compute. reflexivity.
Defined.

Section Again.

(** Copying a string over its own copy changes nothing. *)
Lemma strcpy_again dst src v : strcpy dst src = Some v -> strcpy v src = Some v.
Proof.
  intros H. destruct (strcpy_inv _ _ _ H) as (n & Hn & Hlt & ->).
  pose proof (strlen_bound _ _ Hn) as Hb.
  rewrite (strcpy_some _ src n Hn).
  - rewrite skipn_app, length_firstn.
    replace (Nat.min (n + 1) (length src)) with (n + 1) by lia.
    rewrite Nat.sub_diag, skipn_O, (skipn_all2 (firstn (n + 1) src)); [reflexivity|].
    rewrite length_firstn. lia.
  - rewrite length_app, length_firstn, length_skipn. lia.
Qed.

Lemma taken_again src before after : taken src before after -> taken src after after.
Proof.
  unfold taken. destruct (Byte.eqb (first_cell src) xff); [reflexivity|].
  apply strcpy_again.
Qed.

Lemma taken_functional src before after after' :
  taken src before after -> taken src before after' -> after = after'.
Proof.
  unfold taken. destruct (Byte.eqb (first_cell src) xff); congruence.
Qed.

Lemma taken_loadable src before after : taken src before after -> loadable src.
Proof.
  unfold taken, loadable. destruct (Byte.eqb (first_cell src) xff) eqn:E.
  - left. apply Byte.byte_dec_bl, E.
  - intros H. right. destruct (strcpy_inv _ _ _ H) as (n & Hn & _). congruence.
Qed.

End Again.

(** X4.  [restore] is idempotent: after a [restore] that returned
    [true], a second one on the same medium returns [true] again and
    leaves the object exactly as the first did, without a further call of
    [EEPROM.begin]. *)
Theorem restore_twice w w1 :
  restore w = Some (true, w1) ->
  exists w2,
    restore w1 = Some (true, w2) /\
    this w2 = this w1 /\ EEPROM w2 = EEPROM w1 /\
    since w1 w2 = [CallGet 0].
Proof.
  intros H. pose proof (restore_inv _ _ _ H) as (He & _ & _ & Hon & Ts & Tp).
  assert (Hdef : exists w2, restore w1 = Some (true, w2)).
  { unfold restore.
    destruct (enabled_or_init_ready w1 (or_introl Hon)) as (v & Hrun & Hev & Htv & Hcv).
    rewrite (bind_run _ _ _ _ _ Hrun). cbn [negb].
    rewrite (bind_run _ _ _ _ _ (EEPROM_get_run v)), Hev, He.
    fold (first_cell (ssid (persisted (EEPROM w)))).
    fold (first_cell (password (persisted (EEPROM w)))).
    apply taken_again in Ts. apply taken_again in Tp. unfold taken in Ts, Tp.
    destruct (Byte.eqb (first_cell (ssid (persisted (EEPROM w)))) xff);
      destruct (Byte.eqb (first_cell (password (persisted (EEPROM w)))) xff);
      cbn [negb].
    - eexists. reflexivity.
    - rewrite (bind_run _ _ _ _ _ eq_refl).
      erewrite bind_run;
        [| apply strcpy_to_run; cbn; rewrite Htv; exact Tp].
      eexists. reflexivity.
    - erewrite bind_run;
        [| apply strcpy_to_run; cbn; rewrite Htv; exact Ts].
      eexists. reflexivity.
    - erewrite bind_run;
        [| apply strcpy_to_run; cbn; rewrite Htv; exact Ts].
      erewrite bind_run;
        [| apply strcpy_to_run; cbn; rewrite Htv; exact Tp].
      eexists. reflexivity. }
  destruct Hdef as [w2 H2]. exists w2. split; [exact H2|].
  pose proof (restore_inv _ _ _ H2) as (He2 & Hc2 & Ha2 & Hon2 & Ts2 & Tp2).
  rewrite He in Ts2, Tp2.
  pose proof (taken_functional _ _ _ _ Ts2 (taken_again _ _ _ Ts)) as Es.
  pose proof (taken_functional _ _ _ _ Tp2 (taken_again _ _ _ Tp)) as Ep.
  split; [|split; [exact He2|]].
  - destruct (this w2) as [ap2 [s2 p2] en2], (this w1) as [ap1 [s1 p1] en1].
    cbn in *. congruence.
  - apply since_app. rewrite Hc2, Hon. reflexivity.
Qed.

(** A medium that holds Home and an erased password field. *)
Lemma restore_twice_witness :
  exists w1 w2,
    restore (boot (mkEEPROM true (lit "Home"%string ++ repeat x00 28) [] true))
      = Some (true, w1) /\
    restore w1 = Some (true, w2) /\
    this w2 = this w1 /\ EEPROM w2 = EEPROM w1 /\
    since w1 w2 = [CallGet 0].
Proof.
  eexists. 
  assert (H1 : restore (boot (mkEEPROM true (lit "Home"%string ++ repeat x00 28) [] true))
               = Some (true, ?[w1])) by (vm_compute; reflexivity).
  destruct (restore_twice _ _ H1) as (w2 & H2).
  exists w2. split; [exact H1 | exact H2].
Defined.

(** X5.  What [restore] answers and leaves alone.  Its result is
    [true] exactly when the flag was set or [EEPROM.begin] succeeds, and
    is the value of the flag afterwards; it never changes the medium or
    the AP record; and when it answers [false] the object is as it
    was. *)
Theorem restore_outcome w r w' :
  restore w = Some (r, w') ->
  r = (is_enable (this w) || usable (EEPROM w)) /\
  is_enable (this w') = r /\
  EEPROM w' = EEPROM w /\
  ap_config (this w') = ap_config (this w) /\
  existsb writes_medium (since w w') = false /\
  (r = false -> this w' = this w).
Proof.
  intros H. pose proof (restore_inv _ _ _ H) as Hinv. destruct r.
  - pose proof (restore_true_ready _ _ H) as Hready.
    destruct Hinv as (He & Hc & Ha & Hon & _).
    split; [symmetry; apply orb_true_iff; exact Hready|].
    split; [exact Hon|]. split; [exact He|]. split; [exact Ha|].
    split; [|discriminate].
    rewrite (since_app _ _ _ Hc). destruct (is_enable (this w)); reflexivity.
  - destruct Hinv as (Hen & Hus & ->). cbn. rewrite Hen, Hus.
    split; [reflexivity|]. split; [reflexivity|].
    split; [reflexivity|]. split; [reflexivity|].
    split; [|reflexivity].
    rewrite (since_app w _ [CallBegin EEPROM_SIZE]); reflexivity.
Qed.

(** A medium that cannot be initialised and an object that holds
    Home. *)
Lemma restore_outcome_witness :
  exists w',
    restore (mkWorld (constructed zeroed
                        (mk_wifi_info (lit "Home"%string ++ repeat x00 28) (repeat x00 64)))
               broken [])
    = Some (false, w') /\
    this w' = constructed zeroed
                (mk_wifi_info (lit "Home"%string ++ repeat x00 28) (repeat x00 64)).
Proof.
  eexists. split; [vm_compute; reflexivity|].
  eapply (restore_outcome
            (mkWorld (constructed zeroed
                        (mk_wifi_info (lit "Home"%string ++ repeat x00 28) (repeat x00 64)))
               broken []) false);
    [vm_compute; reflexivity | reflexivity].
Defined.

(** X6.  [store] always comes back.  It answers [true] exactly when the
    flag was set or [EEPROM.begin] succeeds, and that is the flag
    afterwards; it never changes the two records of the object.  When it
    answers [false] it has called [EEPROM.begin] and nothing else, and
    the medium is as before; when it answers [true] the record read back
    from the medium is the client record. *)
Theorem store_answer w :
  exists w',
    store w = Some (is_enable (this w) || usable (EEPROM w), w') /\
    is_enable (this w') = (is_enable (this w) || usable (EEPROM w)) /\
    ap_config (this w') = ap_config (this w) /\
    client_config (this w') = client_config (this w) /\
    (is_enable (this w) || usable (EEPROM w) = false ->
     EEPROM w' = EEPROM w /\ since w w' = [CallBegin EEPROM_SIZE]) /\
    (is_enable (this w) || usable (EEPROM w) = true ->
     sized (client_config (this w)) ->
     persisted (EEPROM w') = client_config (this w)).
Proof.
  destruct (is_enable (this w) || usable (EEPROM w)) eqn:Hb.
  - assert (Hready : medium_ready w) by (apply orb_true_iff; exact Hb).
    eexists. split; [apply (store_run w Hready)|]. cbn [this EEPROM].
    split; [reflexivity|]. split; [reflexivity|]. split; [reflexivity|].
    split; [discriminate|]. intros _ Hsz.
    rewrite persisted_committed. apply persisted_staged, Hsz.
  - apply orb_false_iff in Hb. destruct Hb as [Hen Hus].
    eexists. split; [apply (store_failed w Hen Hus)|]. cbn [this EEPROM].
    split; [exact Hen|]. split; [reflexivity|]. split; [reflexivity|].
    split; [|discriminate]. intros _. split; [reflexivity|].
    apply since_app. reflexivity.
Qed.

(** Home / secretpw stored on a blank medium. *)
Lemma store_answer_witness :
  exists w',
    store (mkWorld (constructed zeroed
                      (mk_wifi_info (lit "Home"%string ++ repeat x00 28)
                         (lit "secretpw"%string ++ repeat x00 55))) blank [])
    = Some (true, w') /\
    persisted (EEPROM w')
    = mk_wifi_info (lit "Home"%string ++ repeat x00 28)
        (lit "secretpw"%string ++ repeat x00 55).
Proof.
  destruct (store_answer
              (mkWorld (constructed zeroed
                          (mk_wifi_info (lit "Home"%string ++ repeat x00 28)
                             (lit "secretpw"%string ++ repeat x00 55))) blank []))
    as (w' & Hrun & _ & _ & _ & _ & Hper).
  exists w'. split; [exact Hrun|].
  apply Hper; [reflexivity | split; reflexivity].
Defined.

(** X7.  The result of [EEPROM.commit] is dropped: on a ready medium
    [store] answers [true] also when the commit fails, and then the
    flushed cells are still the old ones although the staged cells hold
    the new record. *)
Theorem store_drops_commit_failure w :
  medium_ready w ->
  flushes (EEPROM w) = false ->
  sized (client_config (this w)) ->
  exists w',
    store w = Some (true, w') /\
    In CallCommit (since w w') /\
    flash (EEPROM w') = flash (EEPROM w) /\
    persisted (EEPROM w') = client_config (this w).
Proof.
  intros Hready Hfl Hsz.
  eexists. split; [apply (store_run w Hready)|].
  split; [|split].
  - rewrite (since_app w _ ((if is_enable (this w) then [] else [CallBegin EEPROM_SIZE])
                              ++ [CallPut 0; CallCommit])) by reflexivity.
    rewrite in_app_iff. right. right. left. reflexivity.
  - cbn [EEPROM]. unfold Medium.committed, Medium.staged. cbn [flushes].
    rewrite Hfl. reflexivity.
  - cbn [EEPROM]. rewrite persisted_committed. apply persisted_staged, Hsz.
Qed.

(** Home / secretpw stored over Cafe while the flash refuses to
    flush. *)
Lemma store_drops_commit_failure_witness :
  exists w',
    store (mkWorld (constructed zeroed
                      (mk_wifi_info (lit "Home"%string ++ repeat x00 28)
                         (lit "secretpw"%string ++ repeat x00 55)))
             (mkEEPROM true (lit "Cafe"%string) (lit "Cafe"%string) false) [])
    = Some (true, w') /\
    In CallCommit
      (since (mkWorld (constructed zeroed
                         (mk_wifi_info (lit "Home"%string ++ repeat x00 28)
                            (lit "secretpw"%string ++ repeat x00 55)))
                (mkEEPROM true (lit "Cafe"%string) (lit "Cafe"%string) false) []) w') /\
    flash (EEPROM w') = lit "Cafe"%string /\
    persisted (EEPROM w')
    = mk_wifi_info (lit "Home"%string ++ repeat x00 28)
        (lit "secretpw"%string ++ repeat x00 55).
Proof.
  apply (store_drops_commit_failure
           (mkWorld (constructed zeroed
                       (mk_wifi_info (lit "Home"%string ++ repeat x00 28)
                          (lit "secretpw"%string ++ repeat x00 55)))
              (mkEEPROM true (lit "Cafe"%string) (lit "Cafe"%string) false) [])).
  - right. reflexivity.
  - reflexivity.
  - split; reflexivity.
Defined.

Section EveryMethod.

Variable R : World -> World -> Prop.
Hypothesis R_refl : forall w, R w w.
Hypothesis R_trans : forall w1 w2 w3, R w1 w2 -> R w2 w3 -> R w1 w3.
Hypothesis R_strcpy_to : forall f src, keeps R (strcpy_to f src).
Hypothesis R_enabled_or_init : keeps R enabled_or_init.
Hypothesis R_get : forall address, keeps R (EEPROM_get address).
Hypothesis R_put : forall address i, keeps R (EEPROM_put address i).
Hypothesis R_commit : keeps R EEPROM_commit.
Hypothesis R_collector : keeps R (get stub).

(** What the steps of the methods keep, every method of the class
    keeps. *)
Lemma keeps_invoke m : keeps R (invoke m).
Proof.
  assert (Hstore : keeps R store)
    by (apply (keeps_store R R_refl R_trans R_enabled_or_init R_put R_commit)).
  assert (Hrestore : keeps R restore)
    by (apply (keeps_restore R R_refl R_trans R_strcpy_to R_enabled_or_init R_get)).
  destruct m; cbn [invoke];
    try (apply (keeps_bind R R_trans); [| intros ?; apply (keeps_ret R R_refl)]).
  - apply (keeps_configure R R_refl R_trans R_strcpy_to R_enabled_or_init R_get).
    apply (keeps_bind R R_trans); [apply R_collector | intros changed].
    apply (keeps_bind R R_trans); [| intros _; apply (keeps_ret R R_refl)].
    apply keeps_if; [| apply (keeps_ret R R_refl)].
    apply (keeps_bind R R_trans); [apply Hstore | intros _; apply (keeps_ret R R_refl)].
  - apply (keeps_member R R_refl).
  - apply (keeps_member R R_refl).
  - apply (keeps_member R R_refl).
  - apply (keeps_member R R_refl).
  - exact Hrestore.
  - exact Hstore.
  - apply (keeps_setAPConfig R R_trans R_strcpy_to).
  - apply (keeps_setClientConfig R R_trans R_strcpy_to).
  - apply (keeps_isReady R R_refl).
  - apply R_collector.
Qed.

End EveryMethod.

Section NoRebegin.

Lemma no_rebegin_refl w : no_rebegin w w.
Proof. exists []. rewrite app_nil_r. auto. Qed.

Lemma no_rebegin_trans w1 w2 w3 :
  no_rebegin w1 w2 -> no_rebegin w2 w3 -> no_rebegin w1 w3.
Proof.
  intros (d1 & C1 & K1) (d2 & C2 & K2). exists (d1 ++ d2).
  split; [rewrite C2, C1, app_assoc; reflexivity|].
  intros Hon. destruct (K1 Hon) as [Hon2 B1]. destruct (K2 Hon2) as [Hon3 B2].
  rewrite existsb_app, B1, B2. auto.
Qed.

(** A step that leaves the flag alone and does not call
    [EEPROM.begin]. *)
Lemma no_rebegin_plain w w' d :
  calls w' = calls w ++ d -> is_enable (this w') = is_enable (this w) ->
  existsb begins d = false -> no_rebegin w w'.
Proof. intros Hc He Hb. exists d. rewrite He. auto. Qed.

Lemma no_rebegin_invoke m : keeps no_rebegin (invoke m).
Proof.
  apply (keeps_invoke no_rebegin no_rebegin_refl no_rebegin_trans).
  - intros f src w a w' H.
    destruct (strcpy_to_inv _ _ _ _ _ H) as (v & _ & ->).
    apply (no_rebegin_plain _ _ []); cbn;
      [symmetry; apply app_nil_r | apply is_enable_field_set | reflexivity].
  - intros w a w' H. rewrite enabled_or_init_run in H. inversion H; subst.
    destruct (is_enable (this w)) eqn:Hen; [apply no_rebegin_refl|].
    exists [CallBegin EEPROM_SIZE]. split; [reflexivity|]. congruence.
  - intros address w a w' H. inversion H; subst.
    apply (no_rebegin_plain _ _ [CallGet address]); reflexivity.
  - intros address i w a w' H. inversion H; subst.
    apply (no_rebegin_plain _ _ [CallPut address]); reflexivity.
  - intros w a w' H. inversion H; subst.
    apply (no_rebegin_plain _ _ [CallCommit]); reflexivity.
  - intros w a w' H. rewrite get_run in H. inversion H; subst.
    apply (no_rebegin_plain _ _ [CallCollector]); reflexivity.
Qed.

End NoRebegin.

(** X8.  The medium is initialised once: whatever method is invoked on
    an object whose flag is set, [EEPROM.begin] is not called. *)
Theorem begin_not_called_once_enabled m w w' :
  is_enable (this w) = true ->
  invoke m w = Some (tt, w') ->
  existsb begins (since w w') = false.
Proof.
  intros Hon H.
  destruct (no_rebegin_invoke m w tt w' H) as (d & Hc & Hk).
  rewrite (since_app _ _ _ Hc). apply (Hk Hon).
Qed.

(** A second [configure] on the object of a first start. *)
Lemma begin_not_called_once_enabled_witness :
  match invoke (Configure (lit "MyAP"%string) (lit "pass1234"%string) false) (boot blank) with
  | Some (_, w1) =>
      is_enable (this w1) = true /\
      match invoke (Configure (lit "MyAP"%string) (lit "pass1234"%string) true) w1 with
      | Some (_, w2) => existsb begins (since w1 w2) = false
      | None => False
      end
  | None => False
  end.
Proof.
  destruct (invoke (Configure _ _ false) (boot blank)) as [[[] w1]|] eqn:H1;
    [| vm_compute in H1; discriminate].
  pose proof H1 as Hc. vm_compute in Hc. injection Hc as Hw1.
  assert (Hon : is_enable (this w1) = true) by (rewrite <- Hw1; reflexivity).
  split; [exact Hon|].
  destruct (invoke (Configure _ _ true) w1) as [[[] w2]|] eqn:H2.
  - apply (begin_not_called_once_enabled _ _ _ Hon H2).
  - rewrite <- Hw1 in H2. vm_compute in H2. discriminate.
Defined.

Section ShutOut.

Lemma since_same w : since w w = [].
Proof. apply since_app. symmetry. apply app_nil_r. Qed.

Lemma since_with_object t w : since w (with_object t w) = [].
Proof. apply since_app. symmetry. apply app_nil_r. Qed.

End ShutOut.

(** X9.  A medium that cannot be initialised is never read, written or
    flushed: whatever method is invoked on an object whose flag is unset
    while [EEPROM.begin] fails, no [get], [put] or [commit] is called,
    the medium is as before and the flag is still unset. *)
Theorem unusable_medium_never_touched m w w' :
  is_enable (this w) = false -> usable (EEPROM w) = false ->
  invoke m w = Some (tt, w') ->
  existsb touches_medium (since w w') = false /\
  EEPROM w' = EEPROM w /\
  is_enable (this w') = false.
Proof.
  intros Hen Hus H. destruct m; cbn [invoke] in H.
  - destruct (bind_inv _ _ _ _ _ H) as (r & v & Hcfg & Hret). inversion Hret; subst v.
    destruct (configure_inv _ _ _ _ _ _ _ Hcfg) as (w1 & (He & _ & Hi & _) & Hcase).
    destruct Hcase as [(_ & _ & _ & ->) | (w2 & R2 & _)].
    + cbn. rewrite (since_app w _ [CallBegin EEPROM_SIZE]) by reflexivity.
      rewrite Hi. auto.
    + exfalso. destruct (restore_true_ready _ _ R2) as [Hr|Hr]; congruence.
  - inversion H; subst. rewrite since_same. auto.
  - inversion H; subst. rewrite since_same. auto.
  - inversion H; subst. rewrite since_same. auto.
  - inversion H; subst. rewrite since_same. auto.
  - destruct (bind_inv _ _ _ _ _ H) as (r & v & Hre & Hret). inversion Hret; subst v.
    destruct r.
    + exfalso. destruct (restore_true_ready _ _ Hre) as [Hr|Hr]; congruence.
    + destruct (restore_inv _ _ _ Hre) as (_ & _ & ->). cbn.
      rewrite (since_app w _ [CallBegin EEPROM_SIZE]) by reflexivity. auto.
  - rewrite (bind_run _ _ _ _ _ (store_failed w Hen Hus)) in H. inversion H; subst.
    cbn. rewrite (since_app w _ [CallBegin EEPROM_SIZE]) by reflexivity. auto.
  - destruct (setAPConfig_inv _ _ _ _ _ H) as (v1 & v2 & _ & _ & ->).
    rewrite since_with_object. cbn. auto.
  - destruct (setClientConfig_inv _ _ _ _ _ H) as (v1 & v2 & _ & _ & ->).
    rewrite since_with_object. cbn. auto.
  - destruct (bind_inv _ _ _ _ _ H) as (r & v & Hrdy & Hret). inversion Hret; subst v.
    destruct (isReady_inv _ _ _ Hrdy) as [-> _]. rewrite since_same. auto.
  - rewrite (bind_run _ _ _ _ _ (get_run stub w)) in H. inversion H; subst.
    cbn. rewrite (since_app w _ [CallCollector]) by reflexivity. auto.
Qed.

(** A forced [configure] on a medium that fails. *)
Lemma unusable_medium_never_touched_witness :
  match invoke (Configure (lit "MyAP"%string) (lit "pass1234"%string) true) (boot broken) with
  | Some (_, w') =>
      existsb touches_medium (since (boot broken) w') = false /\
      EEPROM w' = broken /\ is_enable (this w') = false
  | None => False
  end.
Proof.
  destruct (invoke (Configure _ _ true) (boot broken)) as [[[] w']|] eqn:H;
    [| vm_compute in H; discriminate].
  apply (unusable_medium_never_touched _ (boot broken) w' eq_refl eq_refl H).
Defined.

Section Bounds.

Lemma strcpy_defined_iff dst src :
  (exists v, strcpy dst src = Some v) <->
  (exists n, strlen src = Some n /\ n < length dst).
Proof.
  split.
  - intros [v H]. destruct (strcpy_inv _ _ _ H) as (n & Hn & Hlt & _). eauto.
  - intros (n & Hn & Hlt). eexists. apply strcpy_some; eassumption.
Qed.

Lemma text_within_iff bound src len :
  len = S bound ->
  (exists n, strlen src = Some n /\ n < len) <-> text_within bound src.
Proof.
  intros ->. unfold text_within.
  split; intros (n & Hn & Hb); exists n; split; try assumption; lia.
Qed.

End Bounds.

(** X10.  [setClientConfig] has a defined outcome exactly when the SSID
    has at most 32 and the password at most 63 characters; it then shows
    the two strings through [getSSID] and [getPassword], leaves the AP
    record and the flag as they were and touches neither the medium nor
    a collaborator. *)
Theorem setClientConfig_within_bounds s p w :
  sized (client_config (this w)) ->
  ((exists w', setClientConfig s p w = Some (tt, w')) <->
   text_within (SSID_SIZE - 1) s /\ text_within (PASSWORD_SIZE - 1) p) /\
  (forall w',
     setClientConfig s p w = Some (tt, w') ->
     seen getSSID w' = c_str s /\ seen getPassword w' = c_str p /\
     ap_config (this w') = ap_config (this w) /\
     is_enable (this w') = is_enable (this w) /\
     EEPROM w' = EEPROM w /\ calls w' = calls w).
Proof.
  intros [Hs Hp]. split; [split|].
  - intros [w' H].
    destruct (setClientConfig_inv _ _ _ _ _ H) as (v1 & v2 & S1 & S2 & _).
    split.
    + apply (text_within_iff _ _ (length (ssid (client_config (this w)))));
        [rewrite Hs; reflexivity|].
      apply strcpy_defined_iff. eauto.
    + apply (text_within_iff _ _ (length (password (client_config (this w)))));
        [rewrite Hp; reflexivity|].
      apply strcpy_defined_iff. eauto.
  - intros [Ts Tp].
    destruct (setClientConfig_run s p w (conj Hs Hp) Ts Tp) as (t & Hrun & _). eauto.
  - intros w' H.
    destruct (setClientConfig_inv _ _ _ _ _ H) as (v1 & v2 & S1 & S2 & ->).
    unfold seen, getSSID, getPassword, member. cbn.
    rewrite (strcpy_c_str _ _ _ S1), (strcpy_c_str _ _ _ S2). auto 10.
Qed.

(** Home / secretpw fit; an SSID of 33 characters does not. *)
Lemma setClientConfig_within_bounds_witness :
  (exists w', setClientConfig (lit "Home"%string) (lit "secretpw"%string) (boot blank)
              = Some (tt, w')) /\
  ~ (exists w', setClientConfig (repeat x41 33 ++ [x00]) (lit "secretpw"%string) (boot blank)
                = Some (tt, w')).
Proof.
  split.
  - apply (proj1 (setClientConfig_within_bounds _ _ (boot blank) (conj eq_refl eq_refl))).
    split; [exists 4 | exists 8]; split; try reflexivity; vm_compute; lia.
  - intros Hdef.
    apply (proj1 (setClientConfig_within_bounds _ _ (boot blank) (conj eq_refl eq_refl)))
      in Hdef.
    destruct Hdef as [(n & Hn & Hb) _]. vm_compute in Hn. inversion Hn; subst n.
    vm_compute in Hb. lia.
Defined.

(** X11.  [setAPConfig] has a defined outcome exactly when the SSID has
    at most 32 and the password at most 63 characters; it then shows the
    two strings through [getAPSSID] and [getAPPassword], leaves the
    client record and the flag as they were and touches neither the
    medium nor a collaborator. *)
Theorem setAPConfig_within_bounds a p w :
  sized (ap_config (this w)) ->
  ((exists w', setAPConfig a p w = Some (tt, w')) <->
   text_within (SSID_SIZE - 1) a /\ text_within (PASSWORD_SIZE - 1) p) /\
  (forall w',
     setAPConfig a p w = Some (tt, w') ->
     seen getAPSSID w' = c_str a /\ seen getAPPassword w' = c_str p /\
     client_config (this w') = client_config (this w) /\
     is_enable (this w') = is_enable (this w) /\
     EEPROM w' = EEPROM w /\ calls w' = calls w).
Proof.
  intros [Hs Hp]. split; [split|].
  - intros [w' H].
    destruct (setAPConfig_inv _ _ _ _ _ H) as (v1 & v2 & S1 & S2 & _).
    split.
    + apply (text_within_iff _ _ (length (ssid (ap_config (this w)))));
        [rewrite Hs; reflexivity|].
      apply strcpy_defined_iff. eauto.
    + apply (text_within_iff _ _ (length (password (ap_config (this w)))));
        [rewrite Hp; reflexivity|].
      apply strcpy_defined_iff. eauto.
  - intros [Ts Tp].
    destruct (setAPConfig_run a p w (conj Hs Hp) Ts Tp) as (t & Hrun & _). eauto.
  - intros w' H.
    destruct (setAPConfig_inv _ _ _ _ _ H) as (v1 & v2 & S1 & S2 & ->).
    unfold seen, getAPSSID, getAPPassword, member. cbn.
    rewrite (strcpy_c_str _ _ _ S1), (strcpy_c_str _ _ _ S2). auto 10.
Qed.

(** MyAP / pass1234 fit; a password of 64 characters does not. *)
Lemma setAPConfig_within_bounds_witness :
  (exists w', setAPConfig (lit "MyAP"%string) (lit "pass1234"%string) (boot blank)
              = Some (tt, w')) /\
  ~ (exists w', setAPConfig (lit "MyAP"%string) (repeat x41 64 ++ [x00]) (boot blank)
                = Some (tt, w')).
Proof.
  split.
  - apply (proj1 (setAPConfig_within_bounds _ _ (boot blank) (conj eq_refl eq_refl))).
    split; [exists 4 | exists 8]; split; try reflexivity; vm_compute; lia.
  - intros Hdef.
    apply (proj1 (setAPConfig_within_bounds _ _ (boot blank) (conj eq_refl eq_refl)))
      in Hdef.
    destruct Hdef as [_ (n & Hn & Hb)]. vm_compute in Hn. inversion Hn; subst n.
    vm_compute in Hb. lia.
Defined.

Section Restart.




End Restart.



(** X13.  Only success is latched.  A [restore] that answered [false]
    left the flag unset, so the next [restore] on the same object calls
    [EEPROM.begin] again, and on a medium that has become usable it
    answers [true]. *)
Theorem failed_restore_is_retried w w1 e l :
  restore w = Some (false, w1) ->
  usable e = true ->
  sized (client_config (this w)) ->
  loadable (ssid (persisted e)) -> loadable (password (persisted e)) ->
  exists w2,
    restore (mkWorld (this w1) e l) = Some (true, w2) /\
    In (CallBegin EEPROM_SIZE) (since (mkWorld (this w1) e l) w2) /\
    is_enable (this w2) = true.
Proof.
  intros H Hus Hsz Ls Lp.
  destruct (restore_inv _ _ _ H) as (Hen & _ & ->). cbn [this].
  destruct (restore_ready (mkWorld (this w) e l) (or_intror Hus) Hsz Ls Lp)
    as (w2 & H2 & Hres).
  exists w2. split; [exact H2|].
  destruct Hres as (_ & Hc & _ & Hon & _). split; [|exact Hon].
  rewrite (since_app _ _ _ Hc). cbn [this]. rewrite Hen. left. reflexivity.
Qed.

(** The medium fails at the first start and works at the second
    try. *)
Lemma failed_restore_is_retried_witness :
  exists w1 w2,
    restore (boot broken) = Some (false, w1) /\
    restore (mkWorld (this w1) blank []) = Some (true, w2) /\
    In (CallBegin EEPROM_SIZE) (since (mkWorld (this w1) blank []) w2) /\
    is_enable (this w2) = true.
Proof.
  eexists.
  assert (H1 : restore (boot broken) = Some (false, ?[w1])) by (vm_compute; reflexivity).
  destruct (failed_restore_is_retried _ _ blank [] H1) as (w2 & H2).
  - reflexivity.
  - split; reflexivity.
  - left. reflexivity.
  - left. reflexivity.
  - exists w2. split; [exact H1 | exact H2].
Defined.

(** X14.  [store] writes the [sizeof(wifi_info)] = 97 cells from
    address 0 and no other: the cells behind them are those from before
    the call, and after a [store] that answered [true] the first 97 are
    the bytes of the client record. *)
Theorem store_stays_in_its_cells w r w' :
  sized (client_config (this w)) ->
  store w = Some (r, w') ->
  skipn sizeof_wifi_info (cells (EEPROM w')) = skipn sizeof_wifi_info (cells (EEPROM w)) /\
  (r = true ->
   firstn sizeof_wifi_info (cells (EEPROM w')) = bytes_of_wifi_info (client_config (this w))).
Proof.
  intros [Hs Hp] H.
  assert (Hlen : length (bytes_of_wifi_info (client_config (this w))) = sizeof_wifi_info).
  { unfold bytes_of_wifi_info, sizeof_wifi_info. rewrite length_app, Hs, Hp. reflexivity. }
  destruct (is_enable (this w) || usable (EEPROM w)) eqn:Hb.
  - assert (Hready : medium_ready w) by (apply orb_true_iff; exact Hb).
    rewrite (store_run w Hready) in H. inversion H; subst r w'. cbn [EEPROM].
    assert (Hcells : cells (Medium.committed
                              (Medium.staged (bytes_of_wifi_info (client_config (this w)))
                                 0 (EEPROM w)))
                     = bytes_of_wifi_info (client_config (this w))
                         ++ skipn sizeof_wifi_info (cells (EEPROM w))).
    { unfold Medium.committed, Medium.staged. cbn [flushes].
      destruct (flushes (EEPROM w)); cbn [cells]; unfold Medium.write_cells;
        cbn [firstn app Nat.add]; rewrite Hlen; reflexivity. }
    rewrite Hcells. split.
    + rewrite skipn_app, Hlen, Nat.sub_diag, skipn_O.
      rewrite <- Hlen at 1. rewrite skipn_all. reflexivity.
    + intros _. rewrite firstn_app, Hlen, Nat.sub_diag. cbn [firstn].
      rewrite <- Hlen, firstn_all. apply app_nil_r.
  - apply orb_false_iff in Hb. destruct Hb as [Hen Hus].
    rewrite (store_failed w Hen Hus) in H. inversion H; subst r w'. cbn [EEPROM].
    split; [reflexivity | discriminate].
Qed.

(** Home / secretpw stored on a medium of 100 cells: the last three keep
    their value. *)
Lemma store_stays_in_its_cells_witness :
  exists w',
    store (mkWorld (constructed zeroed
                      (mk_wifi_info (lit "Home"%string ++ repeat x00 28)
                         (lit "secretpw"%string ++ repeat x00 55)))
             (mkEEPROM true (repeat xff 97 ++ [x01; x02; x03]) [] true) [])
    = Some (true, w') /\
    skipn sizeof_wifi_info (cells (EEPROM w')) = [x01; x02; x03].
Proof.
  eexists. split; [vm_compute; reflexivity|].
  eapply (eq_trans
            (proj1 (store_stays_in_its_cells
                      (mkWorld (constructed zeroed
                                  (mk_wifi_info (lit "Home"%string ++ repeat x00 28)
                                     (lit "secretpw"%string ++ repeat x00 55)))
                         (mkEEPROM true (repeat xff 97 ++ [x01; x02; x03]) [] true) [])
                      true _ (conj eq_refl eq_refl) _))).
  vm_compute. reflexivity.
  Unshelve. vm_compute. reflexivity.
Defined.

(** X15.  Discarding.  Whatever else the collector does to the object,
    when it answers [false] a [configure] that comes back has left the
    medium as it was and has called neither [EEPROM.put] nor
    [EEPROM.commit]. *)
Theorem configure_discards_on_false collector a p f w r w' :
  (forall t, fst (collector t) = false) ->
  configure collector a p f w = Some (r, w') ->
  EEPROM w' = EEPROM w /\ existsb writes_medium (since w w') = false.
Proof.
  intros Hno H.
  destruct (configure_inv _ _ _ _ _ _ _ H) as (w1 & (He & Hc & _) & Hcase).
  destruct Hcase as [(_ & _ & _ & ->) | (w2 & _ & Hres & Hcase)].
  - split; [reflexivity|].
    rewrite (since_app w _ [CallBegin EEPROM_SIZE]); reflexivity.
  - destruct Hres as (He2 & Hc2 & _).
    destruct Hcase as [(_ & _ & _ & ->) | (_ & _ & Htail)].
    + split; [rewrite He2; exact He|].
      rewrite (since_app w w2 ((if is_enable (this w1) then [] else [CallBegin EEPROM_SIZE])
                                 ++ [CallGet 0])) by (rewrite Hc2, Hc; reflexivity).
      destruct (is_enable (this w1)); reflexivity.
    + destruct (collect_and_store_inv _ _ _ _ Htail) as (_ & [(_ & ->) | (Hyes & _)]);
        [| rewrite Hno in Hyes; discriminate].
      cbn [EEPROM]. split; [rewrite He2; exact He|].
      rewrite (since_app w _ ((if is_enable (this w1) then [] else [CallBegin EEPROM_SIZE])
                                ++ [CallGet 0] ++ [CallCollector])).
      * destruct (is_enable (this w1)); reflexivity.
      * cbn [calls]. rewrite Hc2, Hc, <- !app_assoc. reflexivity.
Qed.

(** The user types Home and then cancels: a medium that held Cafe
    still does. *)
Lemma configure_discards_on_false_witness :
  exists w',
    configure
      (fun t => (false, field_set client_ssid_f (lit "Home"%string ++ repeat x00 28) t))
      (lit "MyAP"%string) (lit "pass1234"%string) true
      (boot (mkEEPROM true (lit "Cafe"%string ++ repeat x00 28 ++ lit "12345678"%string)
               [] true))
    = Some (false, w') /\
    EEPROM w' = mkEEPROM true (lit "Cafe"%string ++ repeat x00 28 ++ lit "12345678"%string)
                  [] true.
Proof.
  eexists. split; [vm_compute; reflexivity|].
  eapply (configure_discards_on_false
            (fun t => (false, field_set client_ssid_f (lit "Home"%string ++ repeat x00 28) t))
            (lit "MyAP"%string) (lit "pass1234"%string) true
            (boot (mkEEPROM true (lit "Cafe"%string ++ repeat x00 28 ++ lit "12345678"%string)
                     [] true))).
  - intros t. reflexivity.
  - vm_compute. reflexivity.
Defined.
